(** * Pagination extension for tiptap: page-break placement

    Shallow embedding of [src/index.ts] (the [Pagination] extension and the
    older, simpler copy of it that follows in the same file), together with
    the part of prosemirror-model the extension calls ([Node.nodeSize],
    [Node.descendants], [Node.nodeAt]).

    Numbers.  JavaScript numbers are taken as integers ([Z]): document
    positions and [offsetHeight] are integers in the browser, and the CSS
    lengths read by [calculateListItemHeight] are taken in whole pixels.
    [parseFloat] giving [NaN] is an absent value ([None]). *)

From Stdlib Require Import ZArith List Bool String Lia Sorted DecimalString.
Import ListNotations.
Set Warnings "-register-all".
Open Scope string_scope.
Open Scope list_scope.
Open Scope Z_scope.

(** ** Results of calls that can throw *)

Inductive Result (A : Type) : Type :=
| Ok (a : A)
| RangeError.
Arguments Ok {A} a.
Arguments RangeError {A}.

Definition bind {A B} (r : Result A) (k : A -> Result B) : Result B :=
  match r with
  | Ok a => k a
  | RangeError => RangeError
  end.

Notation "x <- c ;; k" := (bind c (fun x => k))
  (at level 61, c at next level, right associativity).

(** ** prosemirror-model: the document tree *)

Module PM.

(** A node is a text node (a non-empty run of characters), a leaf of the
    schema (horizontal rule, image, hard break) or a node with content.
    The fields kept are the ones the extension reads: [type.name],
    [isBlock], and the content for sizes and positions. *)
Inductive Node : Type :=
| Text (len : positive)
| Leaf (name : string) (block : bool)
| Elem (name : string) (block : bool) (content : list Node).

Definition typeName (n : Node) : string :=
  match n with
  | Text _ => "text"
  | Leaf nm _ => nm
  | Elem nm _ _ => nm
  end.

Definition isBlock (n : Node) : bool :=
  match n with
  | Text _ => false
  | Leaf _ b => b
  | Elem _ b _ => b
  end.

Definition isText (n : Node) : bool :=
  match n with
  | Text _ => true
  | _ => false
  end.

Definition content (n : Node) : list Node :=
  match n with
  | Elem _ _ c => c
  | _ => []
  end.

(** [nodeSize]: the text length for text, 1 for a leaf, otherwise the
    content size plus the opening and closing tokens. *)
Fixpoint nodeSize (n : Node) : Z :=
  match n with
  | Text len => Z.pos len
  | Leaf _ _ => 1
  | Elem _ _ c =>
      2 + (fix size (l : list Node) : Z :=
             match l with
             | [] => 0
             | x :: r => nodeSize x + size r
             end) c
  end.

(** [Fragment.size] *)
Fixpoint size (l : list Node) : Z :=
  match l with
  | [] => 0
  | x :: r => nodeSize x + size r
  end.

(** One call of the callback of [descendants]: the node, its position, and
    (kept for the proofs, the callback does not receive it) the sibling
    that follows the node in its parent. *)
Record Visit : Type := mkVisit {
  vnode : Node;
  vpos : Z;
  vnext : option Node
}.

(** [nodesBetween] over a whole fragment with a callback that never
    returns [false]: every child is passed to the callback at its
    position, then its content is walked from the position after its
    opening token. *)
Fixpoint walk (n : Node) (pos : Z) (next : option Node) : list Visit :=
  mkVisit n pos next ::
  match n with
  | Elem _ _ c =>
      (fix walkList (l : list Node) (p : Z) : list Visit :=
         match l with
         | [] => []
         | x :: r => walk x p (hd_error r) ++ walkList r (p + nodeSize x)
         end) c (pos + 1)
  | _ => []
  end.

Fixpoint walkList (l : list Node) (p : Z) : list Visit :=
  match l with
  | [] => []
  | x :: r => walk x p (hd_error r) ++ walkList r (p + nodeSize x)
  end.

(** [doc.descendants(f)] is [doc.nodesBetween(0, doc.content.size, f)]:
    the calls of [f], in order. *)
Definition descendants (doc : Node) : list Visit := walkList (content doc) 0.

(** [Node.nodeAt(pos)], "the node directly after the given position":
    [Fragment.findIndex] locates the child that starts at or spans [pos];
    a child that starts there (or a text child) is returned, otherwise the
    search goes on inside the child at [pos - (offset + 1)].  A position
    outside the fragment throws. *)
Fixpoint nodeAt (n : Node) (pos : Z) : Result (option Node) :=
  match n with
  | Elem _ _ c =>
      if pos =? 0 then Ok (hd_error c)
      else if pos =? size c then Ok None
      else if (pos >? size c) || (pos <? 0) then RangeError
      else
        (fix scan (l : list Node) (curPos : Z) : Result (option Node) :=
           match l with
           | [] => RangeError
           | cur :: rest =>
               let end_ := curPos + nodeSize cur in
               if end_ >=? pos then
                 if end_ =? pos then Ok (hd_error rest)
                 else if (curPos =? pos) || isText cur then Ok (Some cur)
                 else nodeAt cur (pos - (curPos + 1))
               else scan rest end_
           end) c 0
  | _ => if pos =? 0 then Ok None else RangeError
  end.

(** *** The same search, seen from the proofs *)

(** Induction on a node with the property available for its children. *)
Fixpoint Node_forall_ind (P : Node -> Prop)
  (HText : forall len, P (Text len))
  (HLeaf : forall nm b, P (Leaf nm b))
  (HElem : forall nm b c, Forall P c -> P (Elem nm b c))
  (n : Node) : P n :=
  match n with
  | Text len => HText len
  | Leaf nm b => HLeaf nm b
  | Elem nm b c =>
      HElem nm b c
        ((fix children (l : list Node) : Forall P l :=
            match l with
            | [] => Forall_nil P
            | x :: r =>
                Forall_cons x (Node_forall_ind P HText HLeaf HElem x) (children r)
            end) c)
  end.

(** [findIndex] and the descent of [nodeAt] as one scan of the children. *)
Definition scan (pos : Z) : list Node -> Z -> Result (option Node) :=
  fix scan (l : list Node) (curPos : Z) : Result (option Node) :=
    match l with
    | [] => RangeError
    | cur :: rest =>
        let end_ := curPos + nodeSize cur in
        if end_ >=? pos then
          if end_ =? pos then Ok (hd_error rest)
          else if (curPos =? pos) || isText cur then Ok (Some cur)
          else nodeAt cur (pos - (curPos + 1))
        else scan rest end_
    end.

Definition fragmentAt (c : list Node) (pos : Z) : Result (option Node) :=
  if pos =? 0 then Ok (hd_error c)
  else if pos =? size c then Ok None
  else if (pos >? size c) || (pos <? 0) then RangeError
  else scan pos c 0.

(** Calls in the order of their positions. *)
Definition before (a b : Visit) : Prop := vpos a < vpos b.

End PM.

(** ** The browser side: what [view.nodeDOM(pos)] gives *)

Module DOM.

(** The four lengths of the computed style that [calculateListItemHeight]
    passes to [parseFloat]; [None] stands for a value [parseFloat] turns
    into [NaN]. *)
Record CSSStyleDeclaration : Type := mkStyle {
  marginTop : option Z;
  marginBottom : option Z;
  paddingTop : option Z;
  paddingBottom : option Z
}.

Record HTMLElement : Type := mkElement {
  offsetHeight : Z;
  getComputedStyle : CSSStyleDeclaration
}.

(** A DOM node is an [HTMLElement] or something else (a text node). *)
Inductive DOMNode : Type :=
| IsHTMLElement (el : HTMLElement)
| OtherNode.

(** [view.nodeDOM]: the DOM node of the document node at a position, or
    [null]. *)
Record EditorView : Type := mkView {
  nodeDOM : Z -> option DOMNode
}.

(** [x || 0] for a parsed length. *)
Definition orZero (x : option Z) : Z :=
  match x with
  | Some v => v
  | None => 0
  end.

End DOM.

(** ** The extension *)

Module Pagination.
Import PM DOM.

Record PaginationOptions : Type := mkOptions {
  pageHeight : Z;
  pageWidth : Z;
  pageMargin : Z;
  label : option string;
  showPageNumber : option bool
}.

(** [Partial<PaginationOptions>]: every key may be absent. *)
Record PartialOptions : Type := mkPartial {
  pageHeight' : option Z;
  pageWidth' : option Z;
  pageMargin' : option Z;
  label' : option string;
  showPageNumber' : option bool
}.

Definition addOptions : PaginationOptions :=
  {| pageHeight := 1056;
     pageWidth := 816;
     pageMargin := 96;
     label := Some "Page";
     showPageNumber := Some true |}.

(** *** Transactions and the plugin state *)

(** The metadata of a transaction, as far as the plugin reads it. *)
Record Transaction : Type := mkTr {
  meta : list (string * PartialOptions)
}.

Fixpoint lookupMeta (key : string) (m : list (string * PartialOptions))
  : option PartialOptions :=
  match m with
  | [] => None
  | (k, v) :: r => if String.eqb k key then Some v else lookupMeta key r
  end.

Definition getMeta (tr : Transaction) (key : string) : option PartialOptions :=
  lookupMeta key (meta tr).

Definition setMeta (tr : Transaction) (key : string) (v : PartialOptions)
  : Transaction :=
  {| meta := (key, v) :: meta tr |}.

(** The command [setPaginationOptions]: with a [dispatch] it records the
    patch on the transaction; it returns [true] either way. *)
Definition setPaginationOptions (options : PartialOptions)
  (tr : Transaction) (dispatch : bool) : Transaction * bool :=
  ((if dispatch then setMeta tr "paginationOptions" options else tr), true).

(** [{ ...value, ...newOptions }] *)
Definition spread (value : PaginationOptions) (newOptions : PartialOptions)
  : PaginationOptions :=
  {| pageHeight :=
       match pageHeight' newOptions with Some v => v | None => pageHeight value end;
     pageWidth :=
       match pageWidth' newOptions with Some v => v | None => pageWidth value end;
     pageMargin :=
       match pageMargin' newOptions with Some v => v | None => pageMargin value end;
     label :=
       match label' newOptions with Some v => Some v | None => label value end;
     showPageNumber :=
       match showPageNumber' newOptions with
       | Some v => Some v
       | None => showPageNumber value
       end |}.

(** Plugin state: [init] copies the extension options, [apply] merges the
    patch a transaction carries, if any. *)
Definition init (options : PaginationOptions) : PaginationOptions := options.

Definition apply (tr : Transaction) (value : PaginationOptions)
  : PaginationOptions :=
  match getMeta tr "paginationOptions" with
  | Some newOptions => spread value newOptions
  | None => value
  end.

Record EditorState : Type := mkState {
  doc : Node;
  pluginState : PaginationOptions
}.

(** *** The decorations *)

(** A widget decoration is its position; its [toDOM] is the one closure
    built by [createPageBreak], modelled by [toDOM] below. *)
Record Decoration : Type := widget { dpos : Z }.

(** The variables the callback of [descendants] and the widgets close
    over. *)
Record Locals : Type := mkLocals {
  decorations_ : list Decoration;
  currentPageHeight : Z;
  pageNumber : Z;
  lastNodeWasList : bool;
  currentListHeight : Z;
  listStartPos : Z
}.

Definition initLocals : Locals :=
  {| decorations_ := [];
     currentPageHeight := 0;
     pageNumber := 1;
     lastNodeWasList := false;
     currentListHeight := 0;
     listStartPos := 0 |}.

Definition effectivePageHeight (o : PaginationOptions) : Z :=
  pageHeight o - 2 * pageMargin o.

Definition createPageBreak (pos : Z) : Decoration := widget pos.

Definition calculateListItemHeight (element : HTMLElement) : Z :=
  let style := getComputedStyle element in
  offsetHeight element + orZero (marginTop style) + orZero (marginBottom style)
  + orZero (paddingTop style) + orZero (paddingBottom style).

Definition isList (node : Node) : bool :=
  String.eqb (typeName node) "bulletList" || String.eqb (typeName node) "orderedList".

Definition isListItem (node : Node) : bool :=
  String.eqb (typeName node) "listItem".

Definition nodeHeight (node : Node) (el : HTMLElement) : Z :=
  if isListItem node then calculateListItemHeight el else offsetHeight el.

(** [!nextNode || (nextNode is not a listItem, bulletList or orderedList)] *)
Definition isLastListItem (nextNode : option Node) : bool :=
  match nextNode with
  | None => true
  | Some nx =>
      negb (String.eqb (typeName nx) "listItem")
      && negb (String.eqb (typeName nx) "bulletList")
      && negb (String.eqb (typeName nx) "orderedList")
  end.

(** The list branch once [nextNode] is known. *)
Definition listBranch (eph : Z) (s : Locals) (pos h : Z) (nextNode : option Node)
  : Locals :=
  let listStartPos1 := if lastNodeWasList s then listStartPos s else pos in
  let currentListHeight1 :=
    (if lastNodeWasList s then currentListHeight s else 0) + h in
  if isLastListItem nextNode then
    if currentPageHeight s + currentListHeight1 >? eph then
      {| decorations_ := decorations_ s ++ [createPageBreak listStartPos1];
         currentPageHeight := currentListHeight1;
         pageNumber := pageNumber s;
         lastNodeWasList := false;
         currentListHeight := currentListHeight1;
         listStartPos := listStartPos1 |}
    else
      {| decorations_ := decorations_ s;
         currentPageHeight := currentPageHeight s + currentListHeight1;
         pageNumber := pageNumber s;
         lastNodeWasList := false;
         currentListHeight := currentListHeight1;
         listStartPos := listStartPos1 |}
  else
    {| decorations_ := decorations_ s;
       currentPageHeight := currentPageHeight s;
       pageNumber := pageNumber s;
       lastNodeWasList := true;
       currentListHeight := currentListHeight1;
       listStartPos := listStartPos1 |}.

(** The non-list branch. *)
Definition blockBranch (eph : Z) (s : Locals) (pos h : Z) : Locals :=
  if currentPageHeight s + h >? eph then
    {| decorations_ := decorations_ s ++ [createPageBreak pos];
       currentPageHeight := h;
       pageNumber := pageNumber s;
       lastNodeWasList := false;
       currentListHeight := currentListHeight s;
       listStartPos := listStartPos s |}
  else
    {| decorations_ := decorations_ s;
       currentPageHeight := currentPageHeight s + h;
       pageNumber := pageNumber s;
       lastNodeWasList := false;
       currentListHeight := currentListHeight s;
       listStartPos := listStartPos s |}.

(** The callback passed to [doc.descendants]; the only call that can throw
    is [doc.nodeAt]. *)
Definition callback (view : EditorView) (doc : Node) (eph : Z)
  (s : Locals) (node : Node) (pos : Z) : Result Locals :=
  if negb (isBlock node) then Ok s
  else
    match nodeDOM view pos with
    | Some (IsHTMLElement el) =>
        let h := nodeHeight node el in
        if h =? 0 then Ok s
        else if isList node || isListItem node then
          nextNode <- nodeAt doc (pos + nodeSize node) ;;
          Ok (listBranch eph s pos h nextNode)
        else Ok (blockBranch eph s pos h)
    | _ => Ok s
    end.

(** Running the callback over the calls [descendants] makes. *)
Fixpoint forEach (f : Locals -> Node -> Z -> Result Locals)
  (calls : list Visit) (s : Locals) : Result Locals :=
  match calls with
  | [] => Ok s
  | v :: rest => s' <- f s (vnode v) (vpos v) ;; forEach f rest s'
  end.

(** The state of the closure variables when the traversal is over. *)
Definition traverse (view : EditorView) (state : EditorState) : Result Locals :=
  forEach (callback view (doc state) (effectivePageHeight (pluginState state)))
          (descendants (doc state)) initLocals.

(** [props.decorations]: the widgets handed to [DecorationSet.create], in
    the order they were pushed. *)
Definition decorations (view : EditorView) (state : EditorState)
  : Result (list Decoration) :=
  s <- traverse view state ;; Ok (decorations_ s).

(** *** Drawing the widgets *)

(** The [div] a widget's [toDOM] builds: its class, its
    [data-page-number] attribute, and the text of the [span] it gets when
    page numbers are shown. *)
Record HTMLDivElement : Type := mkDiv {
  className : string;
  dataPageNumber : string;
  pageIndicator : option string
}.

(** [String(n)] for an integer. *)
Definition String_ (n : Z) : string := NilZero.string_of_int (Z.to_int n).

(** [label || 'Page'] *)
Definition labelOrPage (l : option string) : string :=
  match l with
  | Some s => if String.eqb s "" then "Page" else s
  | None => "Page"
  end.

Definition truthy (b : option bool) : bool :=
  match b with
  | Some true => true
  | _ => false
  end.

(** The closure [createPageBreak] gives to [Decoration.widget]: it reads
    [pageNumber] when the widget is drawn, and increments it then. *)
Definition toDOM (o : PaginationOptions) (s : Locals) : HTMLDivElement * Locals :=
  let pageBreak :=
    {| className := "page-break";
       dataPageNumber := String_ (pageNumber s);
       pageIndicator :=
         if truthy (showPageNumber o)
         then Some (labelOrPage (label o) ++ " " ++ String_ (pageNumber s))%string
         else None |} in
  (pageBreak,
   {| decorations_ := decorations_ s;
      currentPageHeight := currentPageHeight s;
      pageNumber := pageNumber s + 1;
      lastNodeWasList := lastNodeWasList s;
      currentListHeight := currentListHeight s;
      listStartPos := listStartPos s |}).

(** The editor view draws each widget of the set once, in the order of
    the set. *)
Fixpoint drawWidgets (o : PaginationOptions) (ds : list Decoration) (s : Locals)
  : list (Decoration * HTMLDivElement) :=
  match ds with
  | [] => []
  | d :: rest => let (el, s') := toDOM o s in (d, el) :: drawWidgets o rest s'
  end.

(** A break as the user sees it: where the marker is, and the page number
    it carries. *)
Record BreakPoint : Type := mkBreak {
  position : Z;
  pageNumberLabel : string
}.

Definition breakPoint (de : Decoration * HTMLDivElement) : BreakPoint :=
  {| position := dpos (fst de); pageNumberLabel := dataPageNumber (snd de) |}.

(** One computation: the traversal, then the widgets drawn. *)
Definition computeBreaks (view : EditorView) (state : EditorState)
  : Result (list BreakPoint) :=
  s <- traverse view state ;;
  Ok (map breakPoint (drawWidgets (pluginState state) (decorations_ s) s)).

End Pagination.

(** ** The simpler copy of the extension (second half of the source file) *)

Module PaginationSimple.
Import PM DOM.

Record PaginationOptions : Type := mkOptions {
  pageHeight : Z;
  pageWidth : Z;
  pageMargin : Z
}.

Definition addOptions : PaginationOptions :=
  {| pageHeight := 1056; pageWidth := 816; pageMargin := 96 |}.

Record EditorState : Type := mkState {
  doc : Node;
  pluginState : PaginationOptions
}.

Record Decoration : Type := widget { dpos : Z }.

Record Locals : Type := mkLocals {
  decorations_ : list Decoration;
  currentPageHeight : Z
}.

Definition initLocals : Locals :=
  {| decorations_ := []; currentPageHeight := 0 |}.

(** The callback: every node is measured (0 unless it is a block drawn as
    an element), a widget is pushed and the page emptied when the node
    does not fit, then the height is added. *)
Definition callback (view : EditorView) (o : PaginationOptions)
  (s : Locals) (node : Node) (pos : Z) : Locals :=
  let nodeHeight :=
    if isBlock node then
      match nodeDOM view pos with
      | Some (IsHTMLElement el) => offsetHeight el
      | _ => 0
      end
    else 0 in
  let s1 :=
    if currentPageHeight s + nodeHeight >? pageHeight o - 2 * pageMargin o then
      {| decorations_ := decorations_ s ++ [widget pos];
         currentPageHeight := 0 |}
    else s in
  {| decorations_ := decorations_ s1;
     currentPageHeight := currentPageHeight s1 + nodeHeight |}.

Definition traverse (view : EditorView) (state : EditorState) : Locals :=
  fold_left (fun s v => callback view (pluginState state) s (vnode v) (vpos v))
            (descendants (doc state)) initLocals.

Definition decorations (view : EditorView) (state : EditorState)
  : list Decoration :=
  decorations_ (traverse view state).

End PaginationSimple.

(** ** The global attribute of text styles *)

Module GlobalAttributes.

(** An element as [getAttribute] reads it: its attributes, in order. *)
Record Element : Type := mkElement {
  attributes : list (string * string)
}.

Fixpoint lookup (name : string) (l : list (string * string)) : option string :=
  match l with
  | [] => None
  | (k, v) :: r => if String.eqb k name then Some v else lookup name r
  end.

(** [element.getAttribute(name)]: the value, or [null]. *)
Definition getAttribute (element : Element) (name : string) : option string :=
  lookup name (attributes element).

(** The attributes the extension adds to [textStyle]: [class], [null] by
    default. *)
Record Attributes : Type := mkAttributes {
  class_ : option string
}.

Definition default : Attributes := {| class_ := None |}.

Definition parseHTML (element : Element) : option string :=
  getAttribute element "class".

(** [attributes.class ? { class: attributes.class } : {}] *)
Definition renderHTML (attributes : Attributes) : list (string * string) :=
  match class_ attributes with
  | Some c => if String.eqb c "" then [] else [("class", c)]
  | None => []
  end.

End GlobalAttributes.

(** * The callback, call by call

    Definitions the statements below are written with: the callback as a
    function of a call, and the situations the properties speak of. *)

Module Model.
Import PM DOM Pagination.

(** The height the callback works with at a call, when the call gets past
    its three guards (block node, drawn as an element, height not 0). *)
Definition measured (view : EditorView) (v : Visit) : option Z :=
  if isBlock (vnode v) then
    match nodeDOM view (vpos v) with
    | Some (IsHTMLElement el) =>
        if nodeHeight (vnode v) el =? 0 then None
        else Some (nodeHeight (vnode v) el)
    | _ => None
    end
  else None.

Definition listRelated (node : Node) : bool := isList node || isListItem node.

(** The callback at a call of [descendants], with the following sibling
    taken from the call instead of looked up. *)
Definition step (view : EditorView) (eph : Z) (s : Locals) (v : Visit) : Locals :=
  match measured view v with
  | None => s
  | Some h =>
      if listRelated (vnode v) then listBranch eph s (vpos v) h (vnext v)
      else blockBranch eph s (vpos v) h
  end.

Definition run (view : EditorView) (eph : Z) (calls : list Visit) (s : Locals)
  : Locals :=
  fold_left (step view eph) calls s.

(** The calls that get past the guards of the callback, with the height
    measured at each. *)
Definition visited (view : EditorView) (calls : list Visit) : list (Visit * Z) :=
  flat_map (fun v => match measured view v with
                     | Some h => [(v, h)]
                     | None => []
                     end) calls.

Definition stepMeasured (eph : Z) (s : Locals) (vh : Visit * Z) : Locals :=
  if listRelated (vnode (fst vh))
  then listBranch eph s (vpos (fst vh)) (snd vh) (vnext (fst vh))
  else blockBranch eph s (vpos (fst vh)) (snd vh).

(** ** Order of the pushed positions *)

(** [lo] bounds the positions seen so far: the pushed positions increase
    and stay below it, and so does the start of a list still open, which
    lies above everything pushed. *)
Definition below (lo : Z) (s : Locals) : Prop :=
  StronglySorted Z.lt (map dpos (decorations_ s))
  /\ Forall (fun d => dpos d < lo) (decorations_ s)
  /\ (lastNodeWasList s = true ->
      listStartPos s < lo
      /\ Forall (fun d => dpos d < listStartPos s) (decorations_ s)).

(** ** Lists *)

(** The calls from inside a list being accumulated up to the call that
    closes it: calls that do not count, list nodes followed by a list
    sibling, and at the end a list node with no sibling after it or one
    that is not a list node.  The number is the sum of the heights. *)
Inductive Accum (view : EditorView) : list Visit -> Z -> Prop :=
| accum_close v h :
    measured view v = Some h -> listRelated (vnode v) = true ->
    isLastListItem (vnext v) = true ->
    Accum view [v] h
| accum_skip v g t :
    measured view v = None -> Accum view g t ->
    Accum view (v :: g) t
| accum_item v h g t :
    measured view v = Some h -> listRelated (vnode v) = true ->
    isLastListItem (vnext v) = false -> Accum view g t ->
    Accum view (v :: g) (h + t).

(** A list group the callback carries to its end: it begins with a call
    that counts, at [start], and accumulates [total]. *)
Definition ListRun (view : EditorView) (g : list Visit) (start total : Z) : Prop :=
  exists v rest h,
    g = v :: rest /\ measured view v = Some h /\ vpos v = start
    /\ Accum view g total.

(** What the callback does when a list of height [total] begun at [start]
    ends. *)
Definition closeList (eph : Z) (s : Locals) (start total : Z) : Locals :=
  if currentPageHeight s + total >? eph then
    {| decorations_ := decorations_ s ++ [createPageBreak start];
       currentPageHeight := total;
       pageNumber := pageNumber s;
       lastNodeWasList := false;
       currentListHeight := total;
       listStartPos := start |}
  else
    {| decorations_ := decorations_ s;
       currentPageHeight := currentPageHeight s + total;
       pageNumber := pageNumber s;
       lastNodeWasList := false;
       currentListHeight := total;
       listStartPos := start |}.

(** ** Where a break is pushed *)

(** The calls that follow the node that opened a list, as long as the
    list stays open: calls that do not count, and list nodes followed by
    a list sibling.  The number is the sum of the heights added. *)
Inductive OpenAccum (view : EditorView) : list Visit -> Z -> Prop :=
| open_nil : OpenAccum view [] 0
| open_skip g t v :
    OpenAccum view g t -> measured view v = None ->
    OpenAccum view (g ++ [v]) t
| open_item g t v h :
    OpenAccum view g t -> measured view v = Some h ->
    listRelated (vnode v) = true -> isLastListItem (vnext v) = false ->
    OpenAccum view (g ++ [v]) (t + h).

(** A widget at position [p] among the calls [seen] comes from one of two
    pushes.  Either an ordinary block was met at [p] and did not fit on
    the page as it was then.  Or a list node was met at [p] when no list
    was open, the calls from it to the node that closed its list
    accumulated [total], and that list did not fit on the page as it was
    when the list was opened (the page height does not move while a list
    is open). *)
Definition pushedBy (view : EditorView) (eph : Z) (seen : list Visit) (p : Z) : Prop :=
  exists pre w post h,
    seen = pre ++ w :: post
    /\ vpos w = p
    /\ measured view w = Some h
    /\ ((listRelated (vnode w) = false
         /\ currentPageHeight (run view eph pre initLocals) + h > eph)
        \/ (listRelated (vnode w) = true
            /\ lastNodeWasList (run view eph pre initLocals) = false
            /\ exists rest tail total,
                 post = rest ++ tail
                 /\ Accum view (w :: rest) total
                 /\ currentPageHeight (run view eph pre initLocals) + total > eph)).

(** The list open in state [s] after the calls [seen]: the node that
    opened it, met when no list was open, the calls since, and what the
    closure variables hold of them. *)
Definition openAt (view : EditorView) (eph : Z) (seen : list Visit) (s : Locals) : Prop :=
  exists pre w rest h t,
    seen = pre ++ w :: rest
    /\ vpos w = listStartPos s
    /\ measured view w = Some h
    /\ listRelated (vnode w) = true
    /\ isLastListItem (vnext w) = false
    /\ lastNodeWasList (run view eph pre initLocals) = false
    /\ OpenAccum view rest t
    /\ currentListHeight s = h + t
    /\ currentPageHeight s = currentPageHeight (run view eph pre initLocals).

(** ** Heights that are positive *)

(** With heights that are positive, the page height and the height of an
    open list are never negative. *)
Definition nonNegative (s : Locals) : Prop :=
  0 <= currentPageHeight s
  /\ (lastNodeWasList s = true -> 0 <= currentListHeight s).

(** ** The two copies compared *)

Definition simpleOptions (o : PaginationOptions) : PaginationSimple.PaginationOptions :=
  {| PaginationSimple.pageHeight := pageHeight o;
     PaginationSimple.pageWidth := pageWidth o;
     PaginationSimple.pageMargin := pageMargin o |}.

Definition simpleState (state : EditorState) : PaginationSimple.EditorState :=
  {| PaginationSimple.doc := doc state;
     PaginationSimple.pluginState := simpleOptions (pluginState state) |}.

(** The two traversals in step: same positions pushed, same page height,
    and a page that is not over-full. *)
Definition inStep (eph : Z) (s : Locals) (s' : PaginationSimple.Locals) : Prop :=
  map dpos (decorations_ s) = map PaginationSimple.dpos (PaginationSimple.decorations_ s')
  /\ currentPageHeight s = PaginationSimple.currentPageHeight s'
  /\ currentPageHeight s <= eph.

(** A call at which the two callbacks take the same decision: the node
    is not a list node drawn as a block element, and what is drawn there
    fits on an empty page. *)
Definition plainCall (view : EditorView) (eph : Z) (v : Visit) : Prop :=
  isBlock (vnode v) = true ->
  forall el, nodeDOM view (vpos v) = Some (IsHTMLElement el) ->
             listRelated (vnode v) = false /\ offsetHeight el <= eph.

(** ** The configuration reducer *)

(** The keys of the options object and the values they hold. *)
Inductive Key : Type :=
| KpageHeight | KpageWidth | KpageMargin | Klabel | KshowPageNumber.

Inductive Value : Type :=
| VNumber (n : Z)
| VString (s : string)
| VBoolean (b : bool)
| VUndefined.

Definition get (o : PaginationOptions) (k : Key) : Value :=
  match k with
  | KpageHeight => VNumber (pageHeight o)
  | KpageWidth => VNumber (pageWidth o)
  | KpageMargin => VNumber (pageMargin o)
  | Klabel => match label o with Some s => VString s | None => VUndefined end
  | KshowPageNumber =>
      match showPageNumber o with Some b => VBoolean b | None => VUndefined end
  end.

(** The value a patch holds for a key; [None] when the key is absent. *)
Definition getPartial (p : PartialOptions) (k : Key) : option Value :=
  match k with
  | KpageHeight => option_map VNumber (pageHeight' p)
  | KpageWidth => option_map VNumber (pageWidth' p)
  | KpageMargin => option_map VNumber (pageMargin' p)
  | Klabel => option_map VString (label' p)
  | KshowPageNumber => option_map VBoolean (showPageNumber' p)
  end.

(** The patch [{ pageMargin: m }]. *)
Definition onlyPageMargin (m : Z) : PartialOptions :=
  {| pageHeight' := None; pageWidth' := None; pageMargin' := Some m;
     label' := None; showPageNumber' := None |}.

End Model.

(** * Measures of a traversal *)

Module Measures.
Import PM DOM Pagination Model.

(** The sum of the heights measured at the calls that count. *)
Definition totalHeight (view : EditorView) (calls : list Visit) : Z :=
  fold_right (fun vh t => snd vh + t) 0 (visited view calls).

(** The calls at which the callback compares a height with the room left
    on the page: ordinary blocks, and list nodes with no list node as
    their next sibling. *)
Definition compares (vh : Visit * Z) : bool :=
  negb (listRelated (vnode (fst vh))) || isLastListItem (vnext (fst vh)).

(** Two traversals of the same calls, the first with the smaller page:
    the list accumulators agree, and the second is not ahead in breaks,
    nor in page height when the breaks are as many. *)
Definition dominated (small large : Locals) : Prop :=
  lastNodeWasList small = lastNodeWasList large
  /\ currentListHeight small = currentListHeight large
  /\ 0 <= currentPageHeight small
  /\ (lastNodeWasList small = true -> 0 <= currentListHeight small)
  /\ (List.length (decorations_ large) <= List.length (decorations_ small))%nat
  /\ (List.length (decorations_ large) = List.length (decorations_ small) ->
      currentPageHeight large <= currentPageHeight small).

(** The height of an open list, 0 when none is open. *)
Definition pending (s : Locals) : Z :=
  if lastNodeWasList s then currentListHeight s else 0.

(** The height the simple callback gives a node. *)
Definition simpleHeight (view : EditorView) (v : Visit) : Z :=
  if isBlock (vnode v) then
    match nodeDOM view (vpos v) with
    | Some (IsHTMLElement el) => offsetHeight el
    | _ => 0
    end
  else 0.

Definition simpleRun (view : EditorView) (o : PaginationSimple.PaginationOptions)
  (calls : list Visit) (s : PaginationSimple.Locals) : PaginationSimple.Locals :=
  fold_left (fun s v => PaginationSimple.callback view o s (vnode v) (vpos v))
            calls s.

End Measures.

(** * Sample documents *)

Module Samples.
Import PM DOM Pagination.

Definition noStyle : CSSStyleDeclaration := mkStyle None None None None.

(** A view that draws an element of the given height at each listed
    position, and nothing elsewhere. *)
Fixpoint heightsAt (l : list (Z * Z)) (p : Z) : option DOMNode :=
  match l with
  | [] => None
  | (q, h) :: r =>
      if q =? p then Some (IsHTMLElement (mkElement h noStyle))
      else heightsAt r p
  end.

Definition viewOf (l : list (Z * Z)) : EditorView := mkView (heightsAt l).

Definition paragraph : Node := Elem "paragraph" true [Text 1].
Definition listItem (c : list Node) : Node := Elem "listItem" true c.
Definition bulletList (c : list Node) : Node := Elem "bulletList" true c.
Definition orderedList (c : list Node) : Node := Elem "orderedList" true c.
Definition blockquote (c : list Node) : Node := Elem "blockquote" true c.
Definition document (c : list Node) : Node := Elem "doc" true c.

Definition withDefaults (d : Node) : EditorState := mkState d addOptions.

End Samples.

Module DegenerateSample.
Import PM DOM Pagination Samples.

(** A paragraph, a bullet list of two items, an ordered list of one item;
    every block is 10 high and the page has no room (100 - 2 * 50). *)
Definition options : PaginationOptions :=
  {| pageHeight := 100; pageWidth := 816; pageMargin := 50;
     label := Some "Page"; showPageNumber := Some true |}.

Definition state : EditorState :=
  mkState
    (document [paragraph;
               bulletList [listItem [paragraph]; listItem [paragraph]];
               orderedList [listItem [paragraph]]])
    options.

Definition view : EditorView :=
  viewOf [(0, 10); (3, 10); (4, 10); (5, 10); (9, 10); (10, 10);
          (15, 10); (16, 10); (17, 10)].

End DegenerateSample.

Module TwoListsSample.
Import PM DOM Pagination Samples.

(** A bullet list and an ordered list, of one item each; lists and items
    are 500 high, the paragraphs in them 400. *)
Definition state : EditorState :=
  withDefaults
    (document [bulletList [listItem [paragraph]];
               orderedList [listItem [paragraph]]]).

Definition view : EditorView :=
  viewOf [(0, 500); (1, 500); (2, 400); (7, 500); (8, 500); (9, 400)].

End TwoListsSample.

Module ListSample.
Import PM DOM Pagination Samples.

(** A paragraph of height 300 and a bullet list of height 700 whose two
    items are 350 high, each holding a paragraph of height 300. *)
Definition state : EditorState :=
  withDefaults
    (document [paragraph;
               bulletList [listItem [paragraph]; listItem [paragraph]]]).

Definition view : EditorView :=
  viewOf [(0, 300); (3, 700); (4, 350); (5, 300); (9, 350); (10, 300)].

End ListSample.

(** * Facts about the document tree *)

Module PMFacts.
Import PM.

Lemma scan_cons pos cur rest curPos :
  scan pos (cur :: rest) curPos =
  if curPos + nodeSize cur >=? pos then
    if curPos + nodeSize cur =? pos then Ok (hd_error rest)
    else if (curPos =? pos) || isText cur then Ok (Some cur)
    else nodeAt cur (pos - (curPos + 1))
  else scan pos rest (curPos + nodeSize cur).
Proof. reflexivity. Qed.

Lemma nodeSize_Elem nm b c : nodeSize (Elem nm b c) = 2 + size c.
Proof. reflexivity. Qed.

Lemma walk_eq n pos next :
  walk n pos next = mkVisit n pos next :: walkList (content n) (pos + 1).
Proof. destruct n; reflexivity. Qed.

Lemma nodeAt_Elem nm b c pos : nodeAt (Elem nm b c) pos = fragmentAt c pos.
Proof. reflexivity. Qed.

Lemma nodeAt_content n pos : nodeAt n pos = fragmentAt (content n) pos.
Proof.
  destruct n as [len|nm b|nm b c]; [| |apply nodeAt_Elem];
    unfold fragmentAt; simpl; destruct (pos =? 0) eqn:E; try reflexivity;
    destruct (pos >? 0) eqn:E1; destruct (pos <? 0) eqn:E2; try reflexivity; lia.
Qed.

#[global] Arguments nodeSize : simpl never.
#[global] Arguments walk : simpl never.
#[global] Arguments nodeAt : simpl never.

Lemma nodeSize_pos n : 1 <= nodeSize n.
Proof.
  induction n as [len|nm b|nm b c IH] using Node_forall_ind.
  - unfold nodeSize. lia.
  - unfold nodeSize. lia.
  - rewrite nodeSize_Elem.
    enough (0 <= size c) by lia.
    induction IH as [|x r Hx _ IHr]; simpl; lia.
Qed.

Lemma size_nonneg c : 0 <= size c.
Proof.
  induction c as [|x r IH]; simpl; [lia|].
  pose proof (nodeSize_pos x). lia.
Qed.

Lemma size_content n : size (content n) < nodeSize n.
Proof.
  pose proof (nodeSize_pos n) as H.
  destruct n as [len|nm b|nm b c]; cbn [content size]; try lia.
  rewrite nodeSize_Elem. lia.
Qed.

(** Simultaneous induction on nodes and fragments. *)
Lemma node_fragment_ind (P : Node -> Prop) (Q : list Node -> Prop) :
  (forall n, Q (content n) -> P n) ->
  Q [] ->
  (forall x r, P x -> Q r -> Q (x :: r)) ->
  (forall n, P n) /\ (forall l, Q l).
Proof.
  intros HP Hnil Hcons.
  assert (HF : forall l, Forall P l -> Q l).
  { induction 1; auto. }
  assert (Hn : forall n, P n).
  { induction n using Node_forall_ind; apply HP; cbn [content]; auto. }
  split; [exact Hn|].
  intros l. apply HF. apply Forall_forall. auto.
Qed.

Lemma walkList_cons x r p :
  walkList (x :: r) p = walk x p (hd_error r) ++ walkList r (p + nodeSize x).
Proof. reflexivity. Qed.

(** Every call made inside a fragment lies within the fragment. *)
Lemma walkList_bounds l base v :
  In v (walkList l base) ->
  base <= vpos v /\ vpos v + nodeSize (vnode v) <= base + size l.
Proof.
  revert l base v.
  refine (proj2 (node_fragment_ind
    (fun n => forall pos nx v, In v (walk n pos nx) ->
       pos <= vpos v /\ vpos v + nodeSize (vnode v) <= pos + nodeSize n)
    (fun l => forall base v, In v (walkList l base) ->
       base <= vpos v /\ vpos v + nodeSize (vnode v) <= base + size l)
    _ _ _)).
  - intros n IH pos nx v Hin. rewrite walk_eq in Hin.
    destruct Hin as [<-|Hin]; cbn [vpos vnode]; [lia|].
    apply IH in Hin. pose proof (size_content n). lia.
  - intros base v [].
  - intros x r Hx Hr base v Hin. rewrite walkList_cons in Hin.
    cbn [size]. pose proof (size_nonneg r). pose proof (nodeSize_pos x).
    apply in_app_or in Hin. destruct Hin as [Hin|Hin].
    + apply Hx in Hin. lia.
    + apply Hr in Hin. lia.
Qed.

Lemma walk_bounds n pos nx v :
  In v (walk n pos nx) ->
  pos <= vpos v /\ vpos v + nodeSize (vnode v) <= pos + nodeSize n.
Proof.
  intros Hin. rewrite walk_eq in Hin.
  destruct Hin as [<-|Hin]; cbn [vpos vnode]; [lia|].
  apply walkList_bounds in Hin. pose proof (size_content n). lia.
Qed.

Lemma StronglySorted_app {A} (R : A -> A -> Prop) l1 l2 :
  StronglySorted R l1 -> StronglySorted R l2 ->
  (forall a b, In a l1 -> In b l2 -> R a b) ->
  StronglySorted R (l1 ++ l2).
Proof.
  induction 1 as [|a l1 Hs IH Ha]; intros H2 Hx; cbn [app]; [assumption|].
  constructor.
  - apply IH; [assumption|]. intros; apply Hx; [now right|assumption].
  - apply Forall_app. split; [assumption|].
    apply Forall_forall. intros b Hb. apply Hx; [now left|assumption].
Qed.

(** The callback is called at strictly increasing positions. *)
Lemma walkList_sorted l base : StronglySorted before (walkList l base).
Proof.
  revert l base.
  refine (proj2 (node_fragment_ind
    (fun n => forall pos nx, StronglySorted before (walk n pos nx))
    (fun l => forall base, StronglySorted before (walkList l base))
    _ _ _)).
  - intros n IH pos nx. rewrite walk_eq. constructor; [apply IH|].
    apply Forall_forall. intros v Hin. apply walkList_bounds in Hin.
    unfold before; cbn [vpos]. lia.
  - intros base. constructor.
  - intros x r Hx Hr base. rewrite walkList_cons.
    apply StronglySorted_app; [apply Hx|apply Hr|].
    intros a b Ha Hb. apply walk_bounds in Ha. apply walkList_bounds in Hb.
    pose proof (nodeSize_pos (vnode a)). unfold before. lia.
Qed.

Lemma descendants_sorted doc : StronglySorted before (descendants doc).
Proof. apply walkList_sorted. Qed.

Lemma size_zero l : size l = 0 -> l = [].
Proof.
  destruct l as [|x r]; [reflexivity|]. cbn [size].
  pose proof (nodeSize_pos x). pose proof (size_nonneg r). lia.
Qed.

Lemma scan_shift d pos l curPos :
  scan (pos + d) l (curPos + d) = scan pos l curPos.
Proof.
  revert curPos. induction l as [|x r IH]; intros curPos; [reflexivity|].
  rewrite !scan_cons.
  replace (curPos + d + nodeSize x) with (curPos + nodeSize x + d) by lia.
  rewrite IH.
  replace (curPos + nodeSize x + d >=? pos + d)
    with (curPos + nodeSize x >=? pos) by (rewrite !Z.geb_leb; apply Bool.eq_true_iff_eq; rewrite !Z.leb_le; lia).
  replace (curPos + nodeSize x + d =? pos + d)
    with (curPos + nodeSize x =? pos) by (apply Bool.eq_true_iff_eq; rewrite !Z.eqb_eq; lia).
  replace (curPos + d =? pos + d)
    with (curPos =? pos) by (apply Bool.eq_true_iff_eq; rewrite !Z.eqb_eq; lia).
  replace (pos + d - (curPos + d + 1)) with (pos - (curPos + 1)) by lia.
  reflexivity.
Qed.

(** [nodeAt] at the end of a visited node finds the sibling that follows
    it, and does not throw. *)
Lemma fragmentAt_next l base v :
  In v (walkList l base) ->
  fragmentAt l (vpos v - base + nodeSize (vnode v)) = Ok (vnext v).
Proof.
  revert l base v.
  refine (proj2 (node_fragment_ind
    (fun n => forall pos v, In v (walkList (content n) (pos + 1)) ->
       nodeAt n (vpos v - pos - 1 + nodeSize (vnode v)) = Ok (vnext v))
    (fun l => forall base v, In v (walkList l base) ->
       fragmentAt l (vpos v - base + nodeSize (vnode v)) = Ok (vnext v))
    _ _ _)).
  - intros n IH pos v Hin. rewrite nodeAt_content.
    apply IH in Hin. rewrite <- Hin. f_equal. lia.
  - intros base v [].
  - intros x r Hx Hr base v Hin. rewrite walkList_cons, walk_eq in Hin.
    pose proof (nodeSize_pos x) as Hsx. pose proof (size_nonneg r) as Hsr.
    pose proof (nodeSize_pos (vnode v)) as Hsv.
    cbn [app] in Hin. destruct Hin as [<-|Hin]; [|apply in_app_or in Hin; destruct Hin as [Hin|Hin]].
    + cbn [vpos vnode vnext]. replace (base - base + nodeSize x) with (nodeSize x) by lia.
      unfold fragmentAt. cbn [size].
      destruct (Z.eqb_spec (nodeSize x) 0) as [E|_]; [lia|].
      destruct (Z.eqb_spec (nodeSize x) (nodeSize x + size r)) as [E|E].
      * assert (r = []) as -> by (apply size_zero; lia). reflexivity.
      * destruct (Z.gtb_spec (nodeSize x) (nodeSize x + size r)); [lia|].
        destruct (Z.ltb_spec (nodeSize x) 0); [lia|]. cbn [orb].
        rewrite scan_cons. cbn [Z.add].
        destruct (Z.geb_spec (nodeSize x) (nodeSize x)); [|lia].
        now rewrite Z.eqb_refl.
    + pose proof (walkList_bounds _ _ _ Hin) as [Hlo Hhi].
      specialize (Hx base v Hin).
      destruct x as [len|nm b|nm b c]; cbn [content walkList] in Hin; try contradiction.
      rewrite nodeSize_Elem in Hsx. cbn [content] in Hhi.
      pose proof (size_nonneg c) as Hsc.
      unfold fragmentAt. cbn [size]. rewrite nodeSize_Elem.
      set (P0 := vpos v - base + nodeSize (vnode v)).
      destruct (Z.eqb_spec P0 0) as [E|_]; [unfold P0 in E; lia|].
      destruct (Z.eqb_spec P0 (2 + size c + size r)) as [E|_]; [unfold P0 in E; lia|].
      destruct (Z.gtb_spec P0 (2 + size c + size r)); [unfold P0 in *; lia|].
      destruct (Z.ltb_spec P0 0); [unfold P0 in *; lia|]. cbn [orb].
      rewrite scan_cons, nodeSize_Elem. cbn [isText].
      destruct (Z.geb_spec (0 + (2 + size c)) P0); [|unfold P0 in *; lia].
      destruct (Z.eqb_spec (0 + (2 + size c)) P0) as [E|_]; [unfold P0 in E; lia|].
      destruct (Z.eqb_spec 0 P0) as [E|_]; [unfold P0 in E; lia|]. cbn [orb].
      rewrite <- Hx. f_equal. unfold P0. lia.
    + pose proof (walkList_bounds _ _ _ Hin) as [Hlo Hhi].
      specialize (Hr _ _ Hin).
      set (P1 := vpos v - (base + nodeSize x) + nodeSize (vnode v)) in Hr.
      replace (vpos v - base + nodeSize (vnode v)) with (P1 + nodeSize x)
        by (unfold P1; lia).
      assert (1 <= P1 <= size r) as HP1 by (unfold P1; lia).
      unfold fragmentAt in Hr |- *. cbn [size].
      destruct (Z.eqb_spec P1 0) as [E|_]; [lia|].
      destruct (Z.eqb_spec (P1 + nodeSize x) 0) as [E|_]; [lia|].
      destruct (Z.eqb_spec P1 (size r)) as [E|E].
      * destruct (Z.eqb_spec (P1 + nodeSize x) (nodeSize x + size r)); [assumption|lia].
      * destruct (Z.eqb_spec (P1 + nodeSize x) (nodeSize x + size r)); [lia|].
        destruct (Z.gtb_spec P1 (size r)); [lia|].
        destruct (Z.ltb_spec P1 0); [lia|].
        destruct (Z.gtb_spec (P1 + nodeSize x) (nodeSize x + size r)); [lia|].
        destruct (Z.ltb_spec (P1 + nodeSize x) 0); [lia|].
        cbn [orb] in Hr |- *.
        rewrite scan_cons.
        destruct (Z.geb_spec (0 + nodeSize x) (P1 + nodeSize x)); [lia|].
        rewrite <- Hr. apply (scan_shift (nodeSize x) P1 r 0).
Qed.

Lemma nodeAt_next doc v :
  In v (descendants doc) ->
  nodeAt doc (vpos v + nodeSize (vnode v)) = Ok (vnext v).
Proof.
  intros Hin. rewrite nodeAt_content.
  apply fragmentAt_next in Hin. rewrite <- Hin. f_equal. lia.
Qed.

End PMFacts.

(** * Facts about the traversal *)

Module PaginationFacts.
Import PM DOM Pagination Model PMFacts.

Lemma callback_step view doc eph s v :
  In v (descendants doc) ->
  callback view doc eph s (vnode v) (vpos v) = Ok (step view eph s v).
Proof.
  intros Hin. unfold callback, step, measured, listRelated.
  destruct (isBlock (vnode v)); cbn [negb]; [|reflexivity].
  destruct (nodeDOM view (vpos v)) as [[el|]|]; try reflexivity.
  destruct (nodeHeight (vnode v) el =? 0); [reflexivity|].
  destruct (isList (vnode v) || isListItem (vnode v)); [|reflexivity].
  rewrite (nodeAt_next doc v Hin). reflexivity.
Qed.

Lemma forEach_run view doc eph calls s :
  (forall v, In v calls -> In v (descendants doc)) ->
  forEach (callback view doc eph) calls s = Ok (run view eph calls s).
Proof.
  revert s. induction calls as [|v rest IH]; intros s Hin; [reflexivity|].
  cbn [forEach run fold_left].
  rewrite callback_step by (apply Hin; now left).
  cbn [bind]. apply IH. intros w Hw. apply Hin. now right.
Qed.

(** The traversal never throws: it ends in the state [run] computes. *)
Lemma traverse_run view state :
  traverse view state =
  Ok (run view (effectivePageHeight (pluginState state))
          (descendants (doc state)) initLocals).
Proof. unfold traverse. apply forEach_run. auto. Qed.

Lemma decorations_run view state :
  decorations view state =
  Ok (decorations_ (run view (effectivePageHeight (pluginState state))
                        (descendants (doc state)) initLocals)).
Proof. unfold decorations. rewrite traverse_run. reflexivity. Qed.

Lemma run_app view eph l1 l2 s :
  run view eph (l1 ++ l2) s = run view eph l2 (run view eph l1 s).
Proof. apply fold_left_app. Qed.

Lemma run_cons view eph v l s :
  run view eph (v :: l) s = run view eph l (step view eph s v).
Proof. reflexivity. Qed.

(** ** Order of the pushed positions *)

Lemma sorted_snoc l x :
  StronglySorted Z.lt (map dpos l) -> Forall (fun d => dpos d < x) l ->
  StronglySorted Z.lt (map dpos (l ++ [createPageBreak x])).
Proof.
  intros Hs Hf. rewrite map_app. apply StronglySorted_app; [assumption| |].
  - cbn. constructor; constructor.
  - intros a b Ha Hb. cbn in Hb. destruct Hb as [<-|[]].
    apply in_map_iff in Ha. destruct Ha as (d & <- & Hd).
    rewrite Forall_forall in Hf. now apply Hf.
Qed.

Lemma Forall_lt_weaken (l : list Decoration) a b :
  a <= b -> Forall (fun d => dpos d < a) l -> Forall (fun d => dpos d < b) l.
Proof.
  intros Hab. apply Forall_impl. intros d. lia.
Qed.

Lemma step_below view eph lo s v :
  below lo s -> lo <= vpos v -> below (vpos v + 1) (step view eph s v).
Proof.
  intros (Hs & Hlo & Hopen) Hv. unfold step.
  destruct (measured view v) as [h|].
  2:{ repeat split; [assumption|eapply Forall_lt_weaken; [|eassumption]; lia| |];
      destruct (Hopen H); [lia|assumption]. }
  destruct (listRelated (vnode v)).
  - unfold listBranch.
    assert (Hstart : (if lastNodeWasList s then listStartPos s else vpos v) < vpos v + 1
                     /\ Forall (fun d => dpos d < (if lastNodeWasList s then listStartPos s else vpos v))
                               (decorations_ s)).
    { destruct (lastNodeWasList s).
      - destruct (Hopen eq_refl). split; [lia|assumption].
      - split; [lia|]. eapply Forall_lt_weaken; [|eassumption]. lia. }
    destruct Hstart as [Hst1 Hst2].
    destruct (isLastListItem (vnext v)).
    + destruct (_ >? eph); cbn [decorations_ lastNodeWasList listStartPos].
      * repeat split; try discriminate.
        -- now apply sorted_snoc.
        -- apply Forall_app. split.
           ++ eapply Forall_lt_weaken; [|exact Hst2]. lia.
           ++ constructor; [cbn; lia|constructor].
      * repeat split; try discriminate; [assumption|].
        eapply Forall_lt_weaken; [|exact Hst2]. lia.
    + cbn [decorations_ lastNodeWasList listStartPos].
      repeat split; try assumption.
      eapply Forall_lt_weaken; [|exact Hst2]. lia.
  - unfold blockBranch.
    destruct (_ >? eph); cbn [decorations_ lastNodeWasList listStartPos].
    + repeat split; try discriminate.
      * apply sorted_snoc; [assumption|].
        eapply Forall_lt_weaken; [|eassumption]. lia.
      * apply Forall_app. split.
        -- eapply Forall_lt_weaken; [|eassumption]. lia.
        -- constructor; [cbn; lia|constructor].
    + repeat split; try discriminate; [assumption|].
      eapply Forall_lt_weaken; [|eassumption]. lia.
Qed.

Lemma run_below view eph calls :
  StronglySorted before calls ->
  forall lo s, below lo s -> (forall v, In v calls -> lo <= vpos v) ->
  exists lo', lo <= lo' /\ below lo' (run view eph calls s).
Proof.
  induction 1 as [|v rest Hsort IH Hv]; intros lo s Hb Hlo.
  - exists lo. split; [lia|assumption].
  - rewrite run_cons.
    destruct (IH (vpos v + 1) (step view eph s v)) as (lo' & Hle & Hb').
    + apply (step_below view eph lo); [assumption|]. apply Hlo. now left.
    + intros w Hw. rewrite Forall_forall in Hv. specialize (Hv w Hw).
      unfold before in Hv. lia.
    + exists lo'. split; [|assumption].
      specialize (Hlo v (or_introl eq_refl)). lia.
Qed.

Lemma initLocals_below : below 0 initLocals.
Proof.
  repeat split; cbn; try constructor; discriminate.
Qed.

(** ** The page number and the drawn widgets *)

Lemma step_pageNumber view eph s v :
  pageNumber (step view eph s v) = pageNumber s.
Proof.
  unfold step, listBranch, blockBranch.
  destruct (measured view v); [|reflexivity].
  destruct (listRelated (vnode v)).
  - destruct (isLastListItem (vnext v)); [|reflexivity].
    destruct (_ >? eph); reflexivity.
  - destruct (_ >? eph); reflexivity.
Qed.

Lemma run_pageNumber view eph calls s :
  pageNumber (run view eph calls s) = pageNumber s.
Proof.
  revert s. induction calls as [|v rest IH]; intros s; [reflexivity|].
  rewrite run_cons, IH. apply step_pageNumber.
Qed.

Lemma drawWidgets_positions o ds s :
  map position (map breakPoint (drawWidgets o ds s)) = map dpos ds.
Proof.
  revert s. induction ds as [|d rest IH]; intros s; [reflexivity|].
  cbn [drawWidgets toDOM map breakPoint position fst]. now rewrite IH.
Qed.

(** The widget drawn after [k] others reads the counter [k] steps on. *)
Lemma drawWidgets_label o ds s k b :
  nth_error (map breakPoint (drawWidgets o ds s)) k = Some b ->
  pageNumberLabel b = String_ (pageNumber s + Z.of_nat k).
Proof.
  revert s k. induction ds as [|d rest IH]; intros s k Hk.
  - destruct k; discriminate.
  - cbn [drawWidgets toDOM map] in Hk. destruct k as [|k].
    + cbn in Hk. injection Hk as <-. cbn. now rewrite Z.add_0_r.
    + cbn [nth_error] in Hk. apply IH in Hk. rewrite Hk.
      cbn [pageNumber]. f_equal. lia.
Qed.

End PaginationFacts.

(** * Properties of the extension *)

Import PM DOM Pagination Model Samples PMFacts PaginationFacts.

(** One computation never throws; its breaks are the pushed widgets, drawn
    with the counter at 1. *)
Lemma computeBreaks_run view state :
  computeBreaks view state =
  Ok (map breakPoint
        (drawWidgets (pluginState state)
           (decorations_ (run view (effectivePageHeight (pluginState state))
                              (descendants (doc state)) initLocals))
           (run view (effectivePageHeight (pluginState state))
                (descendants (doc state)) initLocals))).
Proof. unfold computeBreaks. rewrite traverse_run. reflexivity. Qed.

(** C5. Monotonic positions: a computation returns its breaks, and their
    positions, in the order they were emitted, increase strictly. *)
Theorem break_positions_strictly_increasing view state :
  exists bs,
    computeBreaks view state = Ok bs
    /\ StronglySorted Z.lt (map position bs).
Proof.
  rewrite computeBreaks_run. eexists. split; [reflexivity|].
  rewrite drawWidgets_positions.
  destruct (run_below view (effectivePageHeight (pluginState state))
              (descendants (doc state)) (descendants_sorted _)
              0 initLocals initLocals_below) as (lo & _ & Hs & _).
  - intros v Hv. apply walkList_bounds in Hv. lia.
  - exact Hs.
Qed.

(** C6. Zero-height skip: at a block node whose measured height is 0
    (nothing is drawn for it, or what is drawn is not an element, or the
    element's height is 0) the callback returns at once; no widget is
    pushed and the page height, the page number and the list accumulator
    are what they were. *)
Theorem zero_height_node_skipped view doc eph s node pos :
  isBlock node = true ->
  (forall el, nodeDOM view pos = Some (IsHTMLElement el) ->
              nodeHeight node el = 0) ->
  callback view doc eph s node pos = Ok s.
Proof.
  intros Hb Hzero. unfold callback. rewrite Hb. cbn [negb].
  destruct (nodeDOM view pos) as [[el|]|]; try reflexivity.
  now rewrite (Hzero el eq_refl).
Qed.

Lemma zero_height_node_skipped_witness :
  callback (viewOf [(0, 0)]) (document [paragraph]) 864 initLocals paragraph 0
  = Ok initLocals.
Proof.
  apply (zero_height_node_skipped (viewOf [(0, 0)]) (document [paragraph]) 864
           initLocals paragraph 0).
  - reflexivity.
  - intros el Hel. cbn in Hel. injection Hel as <-. reflexivity.
Defined.

(** ** The configuration reducer *)

(** C8. Config patch isolation: after [setPaginationOptions patch] is
    dispatched, [apply] gives the shallow merge of the patch over the
    current options: a key of the patch takes the patch's value, any other
    key keeps its value.  With the patch [{ pageMargin: m }] the page
    height, page width, label and page-number switch are the old ones, and
    the next computation works with [pageHeight - 2 * m]. *)
Theorem config_patch_shallow_merge (value : PaginationOptions)
  (patch : PartialOptions) (tr : Transaction) (m : Z) :
  let patched := apply (fst (setPaginationOptions patch tr true)) value in
  let margin := apply (fst (setPaginationOptions (onlyPageMargin m) tr true)) value in
  (forall k, get patched k =
             match getPartial patch k with
             | Some v => v
             | None => get value k
             end)
  /\ pageHeight margin = pageHeight value
  /\ pageWidth margin = pageWidth value
  /\ label margin = label value
  /\ showPageNumber margin = showPageNumber value
  /\ pageMargin margin = m
  /\ effectivePageHeight margin = pageHeight value - 2 * m.
Proof.
  cbn. split; [|repeat split].
  intros k. destruct patch as [ph pw pm l sp].
  destruct k; cbn;
    [destruct ph|destruct pw|destruct pm|destruct l; [|destruct (label value)]
    |destruct sp; [|destruct (showPageNumber value)]]; reflexivity.
Qed.

(** ** Determinism *)

Lemma run_ext view1 view2 eph calls s :
  (forall v, In v calls -> measured view1 v = measured view2 v) ->
  run view1 eph calls s = run view2 eph calls s.
Proof.
  revert s. induction calls as [|v rest IH]; intros s H; [reflexivity|].
  rewrite !run_cons.
  replace (step view1 eph s v) with (step view2 eph s v)
    by (unfold step; now rewrite (H v (or_introl eq_refl))).
  apply IH. intros w Hw. apply H. now right.
Qed.

(** C7. Determinism: a computation is a function of the document, the
    options and the elements drawn at the block nodes of the document.
    Two computations on the same state whose views draw the same elements
    there return, and return the same breaks: same positions, same order,
    same page-number labels. *)
Theorem computeBreaks_deterministic view1 view2 state :
  (forall v, In v (descendants (doc state)) -> isBlock (vnode v) = true ->
             nodeDOM view1 (vpos v) = nodeDOM view2 (vpos v)) ->
  exists bs,
    computeBreaks view1 state = Ok bs /\ computeBreaks view2 state = Ok bs.
Proof.
  intros Hdom. rewrite !computeBreaks_run. eexists. split; [reflexivity|].
  rewrite (run_ext view1 view2); [reflexivity|].
  intros v Hv. unfold measured.
  destruct (isBlock (vnode v)) eqn:Hb; [|reflexivity].
  now rewrite (Hdom v Hv Hb).
Qed.

Lemma computeBreaks_deterministic_witness :
  exists bs,
    computeBreaks (viewOf [(0, 500); (3, 500)])
                  (withDefaults (document [paragraph; paragraph])) = Ok bs
    /\ computeBreaks (viewOf [(3, 500); (0, 500); (1, 7)])
                     (withDefaults (document [paragraph; paragraph])) = Ok bs.
Proof.
  apply (computeBreaks_deterministic
           (viewOf [(0, 500); (3, 500)]) (viewOf [(3, 500); (0, 500); (1, 7)])
           (withDefaults (document [paragraph; paragraph]))).
  intros v Hv Hb. cbn in Hv.
  destruct Hv as [<-|[<-|[<-|[<-|[]]]]]; try reflexivity; discriminate Hb.
Defined.

(** ** The calls that count *)

Lemma run_visited view eph calls s :
  run view eph calls s = fold_left (stepMeasured eph) (visited view calls) s.
Proof.
  revert s. induction calls as [|v rest IH]; intros s; [reflexivity|].
  rewrite run_cons. cbn [visited flat_map]. rewrite fold_left_app.
  fold (visited view rest). rewrite <- IH. f_equal.
  unfold step. destruct (measured view v); reflexivity.
Qed.

(** C4 (amended). Numeric scenario: with page height 1056 and margin 96,
    when the calls that count are three ordinary blocks of heights 500,
    500 and 100, one break is returned, at the second block; drawn first,
    it carries page number 1.  In any computation the break drawn after
    [k] others carries [k + 1]: the counter starts at 1 and moves when a
    widget is drawn, after the widget has read it. *)
Theorem numeric_scenario_and_labels view state v1 v2 v3 :
  pageHeight (pluginState state) = 1056 ->
  pageMargin (pluginState state) = 96 ->
  visited view (descendants (doc state)) = [(v1, 500); (v2, 500); (v3, 100)] ->
  listRelated (vnode v1) = false ->
  listRelated (vnode v2) = false ->
  listRelated (vnode v3) = false ->
  computeBreaks view state
    = Ok [{| position := vpos v2; pageNumberLabel := "1" |}]
  /\ (forall view' state', exists bs,
        computeBreaks view' state' = Ok bs
        /\ forall k b, nth_error bs k = Some b ->
                       pageNumberLabel b = String_ (Z.of_nat k + 1)).
Proof.
  intros Hh Hm Hv H1 H2 H3. split.
  - rewrite computeBreaks_run, run_visited, Hv.
    unfold effectivePageHeight. rewrite Hh, Hm.
    cbn [fold_left]. unfold stepMeasured. cbn [fst snd].
    rewrite H1, H2, H3. reflexivity.
  - intros view' state'. rewrite computeBreaks_run. eexists.
    split; [reflexivity|]. intros k b Hk.
    apply drawWidgets_label in Hk. rewrite Hk, run_pageNumber.
    cbn [pageNumber initLocals]. f_equal. lia.
Qed.

Lemma numeric_scenario_and_labels_witness :
  computeBreaks (viewOf [(0, 500); (3, 500); (6, 100)])
                (withDefaults (document [paragraph; paragraph; paragraph]))
    = Ok [{| position := 3; pageNumberLabel := "1" |}]
  /\ (forall view' state', exists bs,
        computeBreaks view' state' = Ok bs
        /\ forall k b, nth_error bs k = Some b ->
                       pageNumberLabel b = String_ (Z.of_nat k + 1)).
Proof.
  apply (numeric_scenario_and_labels
           (viewOf [(0, 500); (3, 500); (6, 100)])
           (withDefaults (document [paragraph; paragraph; paragraph]))
           (mkVisit paragraph 0 (Some paragraph))
           (mkVisit paragraph 3 (Some paragraph))
           (mkVisit paragraph 6 None)); reflexivity.
Defined.

(** C4 as stated fails: with three paragraphs of heights 500, 500 and
    100 and the default options, the one break carries page number 1,
    not 2. *)
Lemma numeric_scenario_label_counterexample :
  computeBreaks (viewOf [(0, 500); (3, 500); (6, 100)])
                (withDefaults (document [paragraph; paragraph; paragraph]))
    = Ok [{| position := 3; pageNumberLabel := "1" |}]
  /\ ~ (exists b,
          computeBreaks (viewOf [(0, 500); (3, 500); (6, 100)])
                        (withDefaults (document [paragraph; paragraph; paragraph]))
            = Ok [b]
          /\ pageNumberLabel b = "2").
Proof.
  split; [reflexivity|].
  intros (b & Hb & Hl). vm_compute in Hb. injection Hb as <-.
  discriminate Hl.
Qed.

(** ** What is pushed, and where *)

Lemma StronglySorted_app_r {A} (R : A -> A -> Prop) l1 l2 :
  StronglySorted R (l1 ++ l2) -> StronglySorted R l2.
Proof.
  induction l1 as [|a l1 IH]; cbn [app]; [auto|].
  intros H. apply StronglySorted_inv in H. apply IH, H.
Qed.

Lemma sorted_after pre v post :
  StronglySorted before (pre ++ v :: post) ->
  forall w, In w post -> vpos v < vpos w.
Proof.
  intros H w Hw. apply StronglySorted_app_r in H.
  apply StronglySorted_inv in H. destruct H as [_ H].
  rewrite Forall_forall in H. exact (H w Hw).
Qed.

(** Widgets are only ever appended, at the current position or at the
    start of the list still open. *)
Lemma step_pushes view eph lo s v :
  lo <= vpos v ->
  (lastNodeWasList s = true -> lo <= listStartPos s) ->
  exists extra,
    decorations_ (step view eph s v) = decorations_ s ++ extra
    /\ Forall (fun d => lo <= dpos d) extra
    /\ (lastNodeWasList (step view eph s v) = true ->
        lo <= listStartPos (step view eph s v)).
Proof.
  intros Hv Hopen. unfold step.
  destruct (measured view v) as [h|].
  2:{ exists []. rewrite app_nil_r. auto. }
  assert (Hstart : lo <= (if lastNodeWasList s then listStartPos s else vpos v)).
  { destruct (lastNodeWasList s); auto. }
  destruct (listRelated (vnode v)).
  - unfold listBranch. destruct (isLastListItem (vnext v)).
    + destruct (_ >? eph); cbn [decorations_ lastNodeWasList listStartPos].
      * eexists. split; [reflexivity|]. split; [|discriminate].
        constructor; [assumption|constructor].
      * exists []. rewrite app_nil_r. repeat split; [constructor|discriminate].
    + cbn [decorations_ lastNodeWasList listStartPos].
      exists []. rewrite app_nil_r. repeat split; [constructor|auto].
  - unfold blockBranch.
    destruct (_ >? eph); cbn [decorations_ lastNodeWasList listStartPos].
    + eexists. split; [reflexivity|]. split; [|discriminate].
      constructor; [assumption|constructor].
    + exists []. rewrite app_nil_r. repeat split; [constructor|discriminate].
Qed.

Lemma run_pushes view eph lo calls :
  (forall v, In v calls -> lo <= vpos v) ->
  forall s, (lastNodeWasList s = true -> lo <= listStartPos s) ->
  exists extra,
    decorations_ (run view eph calls s) = decorations_ s ++ extra
    /\ Forall (fun d => lo <= dpos d) extra.
Proof.
  induction calls as [|v rest IH]; intros Hlo s Hopen.
  - exists []. rewrite app_nil_r. split; [reflexivity|constructor].
  - rewrite run_cons.
    destruct (step_pushes view eph lo s v (Hlo v (or_introl eq_refl)) Hopen)
      as (e1 & He1 & Hf1 & Hopen1).
    destruct (IH (fun w Hw => Hlo w (or_intror Hw)) _ Hopen1) as (e2 & He2 & Hf2).
    exists (e1 ++ e2). rewrite He2, He1, app_assoc. split; [reflexivity|].
    apply Forall_app. split; assumption.
Qed.

Lemma run_skipped view eph calls s :
  visited view calls = [] -> run view eph calls s = s.
Proof. intros H. rewrite run_visited, H. reflexivity. Qed.

Lemma In_positions bs (b : BreakPoint) :
  In b bs -> In (position b) (map position bs).
Proof. apply in_map. Qed.

(** C2 (amended). First content: no break lies before the first call
    that counts.  There is no exemption at that call itself: when its
    node is an ordinary block, the page height after it is the node's
    height, and a break is at the node's own position exactly when that
    height alone exceeds the effective page height. *)
Theorem no_break_before_first_content view state pre v post h :
  descendants (doc state) = pre ++ v :: post ->
  visited view pre = [] ->
  measured view v = Some h ->
  let eph := effectivePageHeight (pluginState state) in
  exists bs,
    computeBreaks view state = Ok bs
    /\ (forall b, In b bs -> vpos v <= position b)
    /\ (listRelated (vnode v) = false ->
        (exists s1,
            forEach (callback view (doc state) eph) (pre ++ [v]) initLocals = Ok s1
            /\ currentPageHeight s1 = h
            /\ decorations_ s1 =
               if h >? eph then [createPageBreak (vpos v)] else [])
        /\ ((exists b, In b bs /\ position b = vpos v) <-> eph < h)).
Proof.
  intros Hdoc Hpre Hm eph.
  rewrite computeBreaks_run. eexists. split; [reflexivity|].
  fold eph. rewrite Hdoc.
  pose proof (descendants_sorted (doc state)) as Hsorted. rewrite Hdoc in Hsorted.
  pose proof (sorted_after _ _ _ Hsorted) as Hafter.
  rewrite run_app, (run_skipped _ _ pre) by assumption.
  split.
  - intros b Hb. apply In_positions in Hb. rewrite drawWidgets_positions in Hb.
    destruct (run_pushes view eph (vpos v) (v :: post)) with (s := initLocals)
      as (extra & He & Hf).
    + intros w [<-|Hw]; [lia|]. specialize (Hafter w Hw). lia.
    + discriminate.
    + rewrite He in Hb. cbn [initLocals decorations_ app] in Hb.
      apply in_map_iff in Hb. destruct Hb as (d & <- & Hd).
      rewrite Forall_forall in Hf. now apply Hf.
  - intros Hl.
    assert (Hs1 : step view eph initLocals v = blockBranch eph initLocals (vpos v) h).
    { unfold step. now rewrite Hm, Hl. }
    split.
    + exists (step view eph initLocals v). split; [|split].
      * rewrite (forEach_run view (doc state) eph).
        -- rewrite run_app, (run_skipped _ _ pre) by assumption. reflexivity.
        -- intros w Hw. rewrite Hdoc. apply in_app_or in Hw. apply in_or_app.
           destruct Hw as [Hw|[<-|[]]]; [now left|right; now left].
      * rewrite Hs1. unfold blockBranch. cbn [initLocals currentPageHeight].
        destruct (0 + h >? eph); reflexivity.
      * rewrite Hs1. unfold blockBranch. cbn [initLocals currentPageHeight decorations_].
        replace (0 + h) with h by lia. destruct (h >? eph); reflexivity.
    + rewrite run_cons.
      destruct (run_pushes view eph (vpos v + 1) post) with (s := step view eph initLocals v)
        as (extra & He & Hf).
      * intros w Hw. specialize (Hafter w Hw). lia.
      * rewrite Hs1. unfold blockBranch. destruct (_ >? eph); discriminate.
      * rewrite Forall_forall in Hf.
        assert (Hpos : forall p, (exists b, In b (map breakPoint
                   (drawWidgets (pluginState state)
                      (decorations_ (run view eph post (step view eph initLocals v)))
                      (run view eph post (step view eph initLocals v))))
                   /\ position b = p)
                 <-> In p (map dpos (decorations_ (run view eph post (step view eph initLocals v))))).
        { intros p. rewrite <- drawWidgets_positions
            with (o := pluginState state) (s := run view eph post (step view eph initLocals v)).
          rewrite (in_map_iff position). split; intros (b & H1 & H2); eauto. }
        rewrite Hpos, He, Hs1. unfold blockBranch.
        cbn [initLocals currentPageHeight decorations_ app].
        rewrite map_app, in_app_iff.
        destruct (Z.gtb_spec (0 + h) eph) as [Hgt|Hle]; cbn [map In].
        -- split; [lia|]. intros _. left. now left.
        -- split; [|lia]. intros [[]|Hin].
           apply in_map_iff in Hin. destruct Hin as (d & Hd & Hin).
           specialize (Hf d Hin). lia.
Qed.

Lemma no_break_before_first_content_witness :
  exists bs,
    computeBreaks (viewOf [(0, 1000)]) (withDefaults (document [paragraph])) = Ok bs
    /\ (forall b, In b bs -> 0 <= position b)
    /\ ((exists b, In b bs /\ position b = 0) <-> 864 < 1000).
Proof.
  destruct (no_break_before_first_content
              (viewOf [(0, 1000)]) (withDefaults (document [paragraph]))
              [] (mkVisit paragraph 0 None) [mkVisit (Text 1) 1 None] 1000
              eq_refl eq_refl eq_refl) as (bs & Hbs & Hlo & Hfirst).
  exists bs. split; [exact Hbs|]. split; [exact Hlo|].
  exact (proj2 (Hfirst eq_refl)).
Defined.

(** C2 as stated fails: the first call that counts is a paragraph at
    position 0, taller (1000) than the effective page height (864), and a
    break is emitted at its position. *)
Lemma first_content_exemption_counterexample :
  visited (viewOf [(0, 1000)]) (descendants (document [paragraph]))
    = [(mkVisit paragraph 0 None, 1000)]
  /\ effectivePageHeight addOptions = 864
  /\ computeBreaks (viewOf [(0, 1000)]) (withDefaults (document [paragraph]))
     = Ok [{| position := 0; pageNumberLabel := "1" |}]
  /\ ~ (forall bs,
          computeBreaks (viewOf [(0, 1000)]) (withDefaults (document [paragraph]))
            = Ok bs ->
          forall b, In b bs -> 0 < position b).
Proof.
  repeat split.
  intros H.
  specialize (H _ eq_refl {| position := 0; pageNumberLabel := "1" |} (or_introl eq_refl)).
  cbn in H. lia.
Qed.

(** ** The two copies compared *)

Lemma callbacks_inStep view o s s' v :
  plainCall view (effectivePageHeight o) v ->
  inStep (effectivePageHeight o) s s' ->
  inStep (effectivePageHeight o)
         (step view (effectivePageHeight o) s v)
         (PaginationSimple.callback view (simpleOptions o) s' (vnode v) (vpos v)).
Proof.
  intros Hplain (Hd & Hc & Hle).
  unfold step, measured, PaginationSimple.callback, plainCall in *.
  cbn [simpleOptions PaginationSimple.pageHeight PaginationSimple.pageMargin].
  fold (effectivePageHeight o). set (eph := effectivePageHeight o) in *.
  assert (Hidle : inStep eph s
            {| PaginationSimple.decorations_ :=
                 PaginationSimple.decorations_
                   (if PaginationSimple.currentPageHeight s' + 0 >? eph
                    then {| PaginationSimple.decorations_ :=
                              PaginationSimple.decorations_ s' ++ [PaginationSimple.widget (vpos v)];
                            PaginationSimple.currentPageHeight := 0 |}
                    else s');
               PaginationSimple.currentPageHeight :=
                 PaginationSimple.currentPageHeight
                   (if PaginationSimple.currentPageHeight s' + 0 >? eph
                    then {| PaginationSimple.decorations_ :=
                              PaginationSimple.decorations_ s' ++ [PaginationSimple.widget (vpos v)];
                            PaginationSimple.currentPageHeight := 0 |}
                    else s') + 0 |}).
  { destruct (Z.gtb_spec (PaginationSimple.currentPageHeight s' + 0) eph); [lia|].
    unfold inStep; cbn; repeat split; try assumption; lia. }
  destruct (isBlock (vnode v)); [|exact Hidle].
  destruct (nodeDOM view (vpos v)) as [[el|]|]; try exact Hidle.
  destruct (Hplain eq_refl el eq_refl) as [Hl Hfit].
  assert (Hh : nodeHeight (vnode v) el = offsetHeight el).
  { unfold nodeHeight. unfold listRelated in Hl.
    apply orb_false_iff in Hl. now rewrite (proj2 Hl). }
  rewrite Hh. destruct (Z.eqb_spec (offsetHeight el) 0) as [E|_].
  - rewrite E. exact Hidle.
  - rewrite Hl. unfold blockBranch. rewrite <- Hc.
    destruct (Z.gtb_spec (currentPageHeight s + offsetHeight el) eph).
    + unfold inStep; cbn; repeat split; try lia.
      rewrite !map_app, Hd. reflexivity.
    + unfold inStep; cbn; repeat split; try assumption; lia.
Qed.

Lemma runs_inStep view o calls :
  (forall v, In v calls -> plainCall view (effectivePageHeight o) v) ->
  forall s s', inStep (effectivePageHeight o) s s' ->
  inStep (effectivePageHeight o)
         (run view (effectivePageHeight o) calls s)
         (fold_left (fun s v => PaginationSimple.callback view (simpleOptions o) s
                                  (vnode v) (vpos v)) calls s').
Proof.
  induction calls as [|v rest IH]; intros Hp s s' H; [exact H|].
  rewrite run_cons. cbn [fold_left]. apply IH.
  - intros w Hw. apply Hp. now right.
  - apply callbacks_inStep; [apply Hp; now left|assumption].
Qed.

(** C10 (amended). The two copies: on a document in which no list node
    is drawn as a block element and every drawn block fits on an empty
    page (whose height is not negative), the list-aware computation and
    the simple one push widgets at the same positions, in the same
    order. *)
Theorem variants_agree_on_plain_documents view state :
  0 <= effectivePageHeight (pluginState state) ->
  (forall v, In v (descendants (doc state)) ->
             plainCall view (effectivePageHeight (pluginState state)) v) ->
  exists ds,
    decorations view state = Ok ds
    /\ map dpos ds
       = map PaginationSimple.dpos
             (PaginationSimple.decorations view (simpleState state)).
Proof.
  intros Heph Hplain. rewrite decorations_run. eexists. split; [reflexivity|].
  unfold PaginationSimple.decorations, PaginationSimple.traverse.
  cbn [simpleState PaginationSimple.doc PaginationSimple.pluginState].
  apply (runs_inStep view (pluginState state) (descendants (doc state)) Hplain
           initLocals PaginationSimple.initLocals).
  unfold inStep; cbn; repeat split; lia.
Qed.

Lemma variants_agree_on_plain_documents_witness :
  exists ds,
    decorations (viewOf [(0, 500); (3, 500); (6, 100)])
                (withDefaults (document [paragraph; paragraph; paragraph])) = Ok ds
    /\ map dpos ds
       = map PaginationSimple.dpos
           (PaginationSimple.decorations
              (viewOf [(0, 500); (3, 500); (6, 100)])
              (simpleState (withDefaults (document [paragraph; paragraph; paragraph])))).
Proof.
  apply (variants_agree_on_plain_documents
           (viewOf [(0, 500); (3, 500); (6, 100)])
           (withDefaults (document [paragraph; paragraph; paragraph]))).
  - vm_compute. discriminate.
  - intros v Hv Hb el Hel. cbn in Hv.
    destruct Hv as [<-|[<-|[<-|[<-|[<-|[<-|[]]]]]]];
      try discriminate Hb; cbn in Hel; injection Hel as <-;
      (split; [reflexivity|vm_compute; discriminate]).
Defined.

(** C10 as stated fails.  On one paragraph of height 1000 holding a
    text node, the list-aware copy pushes one widget, at the paragraph;
    the simple copy pushes a second one, at the text node, because the
    page is over-full when this node of height 0 comes.  On a bullet list
    followed by an ordered list, every block fitting on a page, the
    list-aware copy breaks at the start of the bullet list (0) and the
    simple copy at its item (1). *)
Lemma variants_differ_counterexample :
  decorations (viewOf [(0, 1000)]) (withDefaults (document [paragraph]))
    = Ok [widget 0]
  /\ PaginationSimple.decorations
       (viewOf [(0, 1000)]) (simpleState (withDefaults (document [paragraph])))
     = [PaginationSimple.widget 0; PaginationSimple.widget 1]
  /\ ~ (forall ds,
          decorations (viewOf [(0, 1000)]) (withDefaults (document [paragraph]))
            = Ok ds ->
          forall p,
            In p (map dpos ds) <->
            In p (map PaginationSimple.dpos
                    (PaginationSimple.decorations
                       (viewOf [(0, 1000)])
                       (simpleState (withDefaults (document [paragraph]))))))
  /\ decorations TwoListsSample.view TwoListsSample.state
     = Ok [widget 0; widget 2; widget 7; widget 8; widget 9]
  /\ PaginationSimple.decorations TwoListsSample.view
       (simpleState TwoListsSample.state)
     = [PaginationSimple.widget 1; PaginationSimple.widget 2;
        PaginationSimple.widget 7; PaginationSimple.widget 8;
        PaginationSimple.widget 9].
Proof.
  split; [reflexivity|]. split; [reflexivity|]. split; [|split; reflexivity].
  intros H. specialize (H _ eq_refl 1). cbn in H.
  destruct H as [_ H]. destruct H as [H|[]]; [right; now left|discriminate H].
Qed.

(** ** Where a break can be *)

Lemma open_accum_close view g t :
  OpenAccum view g t ->
  forall tail T, Accum view tail T -> Accum view (g ++ tail) (t + T).
Proof.
  induction 1 as [|g t v _ IH Hm|g t v h _ IH Hm Hl Hlast]; intros tail T Ht.
  - rewrite Z.add_0_l. exact Ht.
  - rewrite <- app_assoc. cbn [app]. apply IH. now apply accum_skip.
  - rewrite <- app_assoc. cbn [app].
    replace (t + h + T) with (t + (h + T)) by lia.
    apply IH. now apply accum_item.
Qed.

Lemma pushedBy_more view eph seen more p :
  pushedBy view eph seen p -> pushedBy view eph (seen ++ more) p.
Proof.
  intros (pre & w & post & h & -> & Hp & Hm & Hkind).
  exists pre, w, (post ++ more), h.
  split; [now rewrite <- app_assoc|]. split; [assumption|]. split; [assumption|].
  destruct Hkind as [Hk|(Hl & Hclosed & rest & tail & total & -> & Hacc & Hover)];
    [now left|right].
  split; [assumption|]. split; [assumption|].
  exists rest, (tail ++ more), total. split; [now rewrite <- app_assoc|]. auto.
Qed.

(** Every widget pushed so far comes from a push as [pushedBy] describes,
    and a list that is open is described by [openAt]. *)
Lemma run_pushed view eph seen :
  let s := run view eph seen initLocals in
  Forall (fun d => pushedBy view eph seen (dpos d)) (decorations_ s)
  /\ (lastNodeWasList s = true -> openAt view eph seen s).
Proof.
  induction seen as [|v seen IH] using rev_ind.
  - cbn. split; [constructor|discriminate].
  - cbn zeta in IH |- *. rewrite run_app. cbn [run fold_left].
    fold (run view eph seen initLocals). set (s := run view eph seen initLocals) in *.
    destruct IH as [IHd IHo].
    assert (Hd : Forall (fun d => pushedBy view eph (seen ++ [v]) (dpos d))
                        (decorations_ s)).
    { eapply Forall_impl; [|exact IHd]. intros d. apply pushedBy_more. }
    unfold step. destruct (measured view v) as [h|] eqn:Hm.
    2:{ split; [assumption|]. intros Ho.
        destruct (IHo Ho) as (pre & w & rest & hw & t & -> & H1 & H2 & H3 & H4 & H5 & H6 & H7 & H8).
        exists pre, w, (rest ++ [v]), hw, t.
        split; [now rewrite <- app_assoc|]. repeat split; try assumption.
        now apply open_skip. }
    destruct (listRelated (vnode v)) eqn:Hl.
    + unfold listBranch. destruct (lastNodeWasList s) eqn:Ho.
      * destruct (IHo eq_refl)
          as (pre & w & rest & hw & t & Hseen & H1 & H2 & H3 & H4 & H5 & H6 & H7 & H8).
        destruct (isLastListItem (vnext v)) eqn:Hlast.
        -- destruct (Z.gtb_spec (currentPageHeight s + (currentListHeight s + h)) eph)
             as [Hover|_]; cbn [decorations_ lastNodeWasList listStartPos];
             (split; [|discriminate]); [|assumption].
           apply Forall_app. split; [assumption|].
           constructor; [|constructor]. cbn [createPageBreak dpos].
           exists pre, w, (rest ++ [v]), hw.
           split; [rewrite Hseen; now rewrite <- app_assoc|].
           split; [assumption|]. split; [assumption|]. right.
           split; [assumption|]. split; [assumption|].
           exists (rest ++ [v]), [], (hw + (t + h)).
           split; [now rewrite app_nil_r|]. split.
           ++ apply accum_item; try assumption.
              apply (open_accum_close view rest t H6 [v] h).
              now apply accum_close.
           ++ rewrite <- H8. lia.
        -- cbn [decorations_ lastNodeWasList listStartPos currentListHeight
                  currentPageHeight].
           split; [assumption|]. intros _.
           exists pre, w, (rest ++ [v]), hw, (t + h).
           split; [rewrite Hseen; now rewrite <- app_assoc|].
           repeat split;
             cbn [listStartPos currentListHeight currentPageHeight];
             try assumption; [now apply open_item|lia].
      * destruct (isLastListItem (vnext v)) eqn:Hlast.
        -- destruct (Z.gtb_spec (currentPageHeight s + (0 + h)) eph)
             as [Hover|_]; cbn [decorations_ lastNodeWasList listStartPos];
             (split; [|discriminate]); [|assumption].
           apply Forall_app. split; [assumption|].
           constructor; [|constructor]. cbn [createPageBreak dpos].
           exists seen, v, [], h.
           split; [reflexivity|]. split; [reflexivity|]. split; [assumption|].
           right. split; [assumption|]. split; [assumption|].
           exists [], [], h. split; [reflexivity|]. split.
           ++ now apply accum_close.
           ++ fold s. lia.
        -- cbn [decorations_ lastNodeWasList listStartPos currentListHeight
                  currentPageHeight].
           split; [assumption|]. intros _.
           exists seen, v, [], h, 0.
           repeat split;
             cbn [listStartPos currentListHeight currentPageHeight];
             try assumption; try reflexivity; [constructor|lia].
    + unfold blockBranch.
      destruct (Z.gtb_spec (currentPageHeight s + h) eph) as [Hover|_];
        cbn [decorations_ lastNodeWasList listStartPos];
        (split; [|discriminate]); [|assumption].
      apply Forall_app. split; [assumption|].
      constructor; [|constructor]. cbn [createPageBreak dpos].
      exists seen, v, [], h.
      split; [reflexivity|]. split; [reflexivity|]. split; [assumption|].
      left. split; [assumption|]. fold s. lia.
Qed.

Lemma measured_isBlock view v h : measured view v = Some h -> isBlock (vnode v) = true.
Proof.
  unfold measured. destruct (isBlock (vnode v)); [reflexivity|discriminate].
Qed.

(** A call at a position strictly inside the span of a visited node is a
    call on a descendant of that node. *)
Lemma inside_span l base u w :
  In u (walkList l base) -> In w (walkList l base) ->
  vpos u < vpos w < vpos u + nodeSize (vnode u) ->
  In w (walkList (content (vnode u)) (vpos u + 1)).
Proof.
  revert l base u w.
  refine (proj2 (node_fragment_ind
    (fun n => forall pos nx u w, In u (walk n pos nx) -> In w (walk n pos nx) ->
       vpos u < vpos w < vpos u + nodeSize (vnode u) ->
       In w (walkList (content (vnode u)) (vpos u + 1)))
    (fun l => forall base u w, In u (walkList l base) -> In w (walkList l base) ->
       vpos u < vpos w < vpos u + nodeSize (vnode u) ->
       In w (walkList (content (vnode u)) (vpos u + 1)))
    _ _ _)).
  - intros n IH pos nx u w Hu Hw Hin. rewrite walk_eq in Hu, Hw.
    destruct Hu as [<-|Hu]; cbn [vpos vnode] in *.
    + destruct Hw as [<-|Hw]; [cbn [vpos] in Hin; lia|assumption].
    + destruct Hw as [<-|Hw].
      * apply walkList_bounds in Hu. cbn [vpos] in Hin. lia.
      * eapply IH; eassumption.
  - intros base u w [].
  - intros x r Hx Hr base u w Hu Hw Hin. rewrite walkList_cons in Hu, Hw.
    apply in_app_or in Hu. apply in_app_or in Hw.
    destruct Hu as [Hu|Hu], Hw as [Hw|Hw].
    + eapply Hx; eassumption.
    + apply walk_bounds in Hu. apply walkList_bounds in Hw. lia.
    + apply walkList_bounds in Hu. apply walk_bounds in Hw.
      pose proof (nodeSize_pos (vnode w)). lia.
    + eapply Hr; eassumption.
Qed.

(** C3 (amended). Where breaks are: every break is at the position of a
    call that counts.  Either the call is on an ordinary block, which did
    not fit on the page when it was reached.  Or it is on the list node
    that opened the list whose end pushed the break: no list was open
    when the node was met, the calls from it to the closing node are the
    list accumulated, and that list did not fit.  Nested blocks are
    visited too, so a break can lie strictly inside the span of a visited
    node; it is then at the start of a block nested in that node, never
    elsewhere in the node. *)
Theorem breaks_at_node_starts view state :
  let eph := effectivePageHeight (pluginState state) in
  exists bs,
    computeBreaks view state = Ok bs
    /\ forall b, In b bs ->
       exists pre w post h s,
         descendants (doc state) = pre ++ w :: post
         /\ vpos w = position b
         /\ isBlock (vnode w) = true
         /\ measured view w = Some h
         /\ forEach (callback view (doc state) eph) pre initLocals = Ok s
         /\ ((listRelated (vnode w) = false
              /\ currentPageHeight s + h > eph)
             \/ (listRelated (vnode w) = true
                 /\ lastNodeWasList s = false
                 /\ exists rest tail total,
                      post = rest ++ tail
                      /\ Accum view (w :: rest) total
                      /\ currentPageHeight s + total > eph))
         /\ forall u, In u (descendants (doc state)) ->
                      vpos u < position b < vpos u + nodeSize (vnode u) ->
                      In w (walkList (content (vnode u)) (vpos u + 1)).
Proof.
  intros eph. rewrite computeBreaks_run. eexists. split; [reflexivity|].
  fold eph. intros b Hb. apply In_positions in Hb.
  rewrite drawWidgets_positions in Hb.
  apply in_map_iff in Hb. destruct Hb as (d & Hd & Hin).
  destruct (run_pushed view eph (descendants (doc state))) as [Ho _].
  rewrite Forall_forall in Ho. specialize (Ho d Hin).
  destruct Ho as (pre & w & post & h & Hdoc & Hp & Hm & Hkind).
  exists pre, w, post, h, (run view eph pre initLocals). rewrite <- Hd.
  split; [assumption|]. split; [assumption|].
  split; [eapply measured_isBlock; eassumption|]. split; [assumption|].
  split; [|split].
  - apply forEach_run. intros x Hx. rewrite Hdoc. apply in_or_app. now left.
  - exact Hkind.
  - intros u Hu Hspan. rewrite <- Hp in Hspan.
    apply (inside_span (content (doc state)) 0 u w); [exact Hu| |exact Hspan].
    unfold descendants in Hdoc. rewrite Hdoc. apply in_or_app. right. now left.
Qed.

(** C3 as stated fails: a block quote of height 1000 holds two
    paragraphs of height 500; the break at position 1, before the first
    paragraph, is strictly inside the span of the block quote, an ordinary
    block visited at position 0 with size 8. *)
Lemma break_inside_node_counterexample :
  let view := viewOf [(0, 1000); (1, 500); (4, 500)] in
  let state := withDefaults (document [blockquote [paragraph; paragraph]]) in
  let quote := mkVisit (blockquote [paragraph; paragraph]) 0 None in
  computeBreaks view state
    = Ok [{| position := 0; pageNumberLabel := "1" |};
          {| position := 1; pageNumberLabel := "2" |};
          {| position := 4; pageNumberLabel := "3" |}]
  /\ In quote (descendants (doc state))
  /\ listRelated (vnode quote) = false
  /\ measured view quote = Some 1000
  /\ vpos quote < 1 < vpos quote + nodeSize (vnode quote).
Proof.
  cbn zeta. split; [reflexivity|]. split; [now left|].
  split; [reflexivity|]. split; [reflexivity|]. vm_compute. split; reflexivity.
Qed.

(** ** Lists *)

Lemma accum_open view eph g t :
  Accum view g t ->
  forall s, lastNodeWasList s = true ->
  run view eph g s = closeList eph s (listStartPos s) (currentListHeight s + t).
Proof.
  induction 1 as [v h Hm Hl Hlast|v g t Hm _ IH|v h g t Hm Hl Hlast _ IH];
    intros s Hopen.
  - cbn [run fold_left]. unfold step, listBranch, closeList.
    rewrite Hm, Hl, Hlast, Hopen. reflexivity.
  - rewrite run_cons. unfold step at 1. rewrite Hm. now apply IH.
  - rewrite run_cons. unfold step at 1, listBranch.
    rewrite Hm, Hl, Hlast, Hopen. rewrite IH by reflexivity.
    unfold closeList. cbn [decorations_ currentPageHeight pageNumber
                            currentListHeight listStartPos].
    replace (currentListHeight s + (h + t)) with (currentListHeight s + h + t)
      by lia.
    reflexivity.
Qed.

(** A list group carried to its end is one block for the page: one
    comparison, at most one widget, at the start of the group. *)
Lemma list_run_atomic view eph g start total s :
  ListRun view g start total ->
  lastNodeWasList s = false ->
  run view eph g s = closeList eph s start total.
Proof.
  intros (v & rest & h & -> & Hm & <- & Hacc) Hclosed.
  inversion Hacc as [v' h' Hm' Hl Hlast|v' g' t' Hm' _|v' h' g' t' Hm' Hl Hlast Hrest];
    subst.
  - cbn [run fold_left]. unfold step, listBranch, closeList.
    rewrite Hm', Hl, Hlast, Hclosed. reflexivity.
  - congruence.
  - rewrite run_cons. unfold step at 1, listBranch.
    rewrite Hm', Hl, Hlast, Hclosed.
    rewrite (accum_open view eph _ _ Hrest) by reflexivity.
    unfold closeList. cbn [decorations_ currentPageHeight pageNumber
                            currentListHeight listStartPos].
    reflexivity.
Qed.

Lemma accum_total_positive view g t :
  (forall v h, In v g -> measured view v = Some h -> 0 < h) ->
  Accum view g t -> 0 < t.
Proof.
  intros Hpos Hacc.
  induction Hacc as [v h Hm _ _|v g t _ _ IH|v h g t Hm _ _ _ IH].
  - apply (Hpos v h); [now left|assumption].
  - apply IH. intros w k Hw. apply Hpos. now right.
  - assert (0 < h) by (apply (Hpos v h); [now left|assumption]).
    assert (0 < t) by (apply IH; intros w k Hw; apply Hpos; now right).
    lia.
Qed.

(** ** A page height that is not positive *)

Lemma run_extends view eph calls s :
  exists extra, decorations_ (run view eph calls s) = decorations_ s ++ extra.
Proof.
  revert s. induction calls as [|v rest IH]; intros s.
  - exists []. now rewrite app_nil_r.
  - rewrite run_cons. destruct (IH (step view eph s v)) as (e2 & He2).
    destruct (step_pushes view eph (Z.min (vpos v) (listStartPos s)) s v)
      as (e1 & He1 & _); [lia|lia|].
    exists (e1 ++ e2). now rewrite He2, He1, app_assoc.
Qed.

Lemma step_nonNegative view eph s v :
  (forall h, measured view v = Some h -> 0 < h) ->
  nonNegative s -> nonNegative (step view eph s v).
Proof.
  intros Hpos [Hc Hl]. unfold step.
  destruct (measured view v) as [h|]; [|split; assumption].
  specialize (Hpos h eq_refl).
  assert (0 <= (if lastNodeWasList s then currentListHeight s else 0) + h).
  { destruct (lastNodeWasList s); [specialize (Hl eq_refl)|]; lia. }
  destruct (listRelated (vnode v)).
  - unfold listBranch. destruct (isLastListItem (vnext v)).
    + destruct (_ >? eph); split; cbn; try discriminate; lia.
    + split; cbn; [lia|intros _; lia].
  - unfold blockBranch. destruct (_ >? eph); split; cbn; try discriminate; lia.
Qed.

Lemma run_nonNegative view eph calls :
  (forall v h, In v calls -> measured view v = Some h -> 0 < h) ->
  forall s, nonNegative s -> nonNegative (run view eph calls s).
Proof.
  induction calls as [|v rest IH]; intros Hpos s Hs; [exact Hs|].
  rewrite run_cons. apply IH.
  - intros w h Hw. apply Hpos. now right.
  - apply step_nonNegative; [|assumption].
    intros h. apply Hpos. now left.
Qed.

(** C9 (amended). Degenerate configuration: when the effective page
    height is not positive the computation still returns, without an
    error, and (measured heights being positive) there is a break at
    every ordinary block that counts, the first one included, and at the
    start of every list group that is carried to its end. *)
Theorem degenerate_config_breaks view state :
  let eph := effectivePageHeight (pluginState state) in
  eph <= 0 ->
  (forall v h, In v (descendants (doc state)) -> measured view v = Some h -> 0 < h) ->
  exists bs,
    computeBreaks view state = Ok bs
    /\ (forall pre v post h,
          descendants (doc state) = pre ++ v :: post ->
          measured view v = Some h -> listRelated (vnode v) = false ->
          In (vpos v) (map position bs))
    /\ (forall pre g post start total s,
          descendants (doc state) = pre ++ g ++ post ->
          forEach (callback view (doc state) eph) pre initLocals = Ok s ->
          lastNodeWasList s = false ->
          ListRun view g start total ->
          In start (map position bs)).
Proof.
  intros eph Heph Hpos. rewrite computeBreaks_run. eexists. split; [reflexivity|].
  fold eph. rewrite drawWidgets_positions.
  assert (Hinit : nonNegative initLocals) by (split; cbn; [lia|discriminate]).
  split.
  - intros pre v post h Hdoc Hm Hl. rewrite Hdoc, run_app, run_cons.
    destruct (run_extends view eph post (step view eph (run view eph pre initLocals) v))
      as (extra & ->).
    rewrite map_app. apply in_or_app. left.
    assert (Hnn : nonNegative (run view eph pre initLocals)).
    { apply run_nonNegative; [|assumption].
      intros w k Hw. apply Hpos. rewrite Hdoc. apply in_or_app. now left. }
    assert (0 < h).
    { apply (Hpos v h); [|assumption]. rewrite Hdoc. apply in_or_app. right. now left. }
    unfold step. rewrite Hm, Hl. unfold blockBranch.
    destruct Hnn as [Hc _].
    destruct (Z.gtb_spec (currentPageHeight (run view eph pre initLocals) + h) eph);
      [|lia].
    cbn [decorations_]. rewrite map_app. apply in_or_app. right. now left.
  - intros pre g post start total s Hdoc Hs Hclosed Hrun.
    rewrite (forEach_run view (doc state) eph) in Hs.
    2:{ intros w Hw. rewrite Hdoc. apply in_or_app. now left. }
    injection Hs as <-.
    rewrite Hdoc, run_app, run_app.
    destruct (run_extends view eph post (run view eph g (run view eph pre initLocals)))
      as (extra & ->).
    rewrite map_app. apply in_or_app. left.
    rewrite (list_run_atomic view eph g start total) by assumption.
    assert (Hnn : nonNegative (run view eph pre initLocals)).
    { apply run_nonNegative; [|assumption].
      intros w k Hw. apply Hpos. rewrite Hdoc. apply in_or_app. now left. }
    assert (0 < total).
    { destruct Hrun as (v & rest & h & _ & _ & _ & Hacc).
      apply (accum_total_positive view g); [|assumption].
      intros w k Hw. apply Hpos. rewrite Hdoc.
      apply in_or_app. right. apply in_or_app. now left. }
    unfold closeList. destruct Hnn as [Hc _].
    destruct (Z.gtb_spec (currentPageHeight (run view eph pre initLocals) + total) eph);
      [|lia].
    cbn [decorations_]. rewrite map_app. apply in_or_app. right. now left.
Qed.

Lemma degenerate_config_breaks_witness :
  exists bs,
    computeBreaks DegenerateSample.view DegenerateSample.state = Ok bs
    /\ In 0 (map position bs)
    /\ In 9 (map position bs).
Proof.
  destruct (degenerate_config_breaks DegenerateSample.view DegenerateSample.state)
    as (bs & Hbs & Hblock & Hlist).
  - vm_compute. discriminate.
  - intros v h Hv Hm. cbn in Hv.
    repeat (destruct Hv as [<-|Hv]; [vm_compute in Hm; try discriminate Hm;
                                     injection Hm as <-; reflexivity|]).
    destruct Hv.
  - exists bs. split; [exact Hbs|]. split.
    + apply (Hblock [] (mkVisit paragraph 0
                          (Some (bulletList [listItem [paragraph]; listItem [paragraph]])))
                    (tl (descendants (doc DegenerateSample.state))) 10);
        reflexivity.
    + apply (Hlist (firstn 6 (descendants (doc DegenerateSample.state)))
                   [mkVisit (listItem [paragraph]) 9 None]
                   (skipn 7 (descendants (doc DegenerateSample.state)))
                   9 10
                   (run DegenerateSample.view 0
                        (firstn 6 (descendants (doc DegenerateSample.state)))
                        initLocals)).
      * reflexivity.
      * reflexivity.
      * reflexivity.
      * exists (mkVisit (listItem [paragraph]) 9 None), [], 10.
        repeat split. apply accum_close; reflexivity.
Defined.

(** C9 as stated fails: on the sample the bullet list (position 3) and
    its first item (position 4) count, with height 10, and are not the
    first content; the list is followed by another list and never comes to
    its end, because the paragraph inside the first item is an ordinary
    block.  No break is emitted at 3 or 4.  And the first content, the
    paragraph at 0, does get a break. *)
Lemma degenerate_config_counterexample :
  effectivePageHeight DegenerateSample.options = 0
  /\ map (fun vh => (vpos (fst vh), listRelated (vnode (fst vh)), snd vh))
         (visited DegenerateSample.view (descendants (doc DegenerateSample.state)))
     = [(0, false, 10); (3, true, 10); (4, true, 10); (5, false, 10);
        (9, true, 10); (10, false, 10); (15, true, 10); (16, true, 10);
        (17, false, 10)]
  /\ computeBreaks DegenerateSample.view DegenerateSample.state
     = Ok [{| position := 0; pageNumberLabel := "1" |};
           {| position := 5; pageNumberLabel := "2" |};
           {| position := 9; pageNumberLabel := "3" |};
           {| position := 10; pageNumberLabel := "4" |};
           {| position := 15; pageNumberLabel := "5" |};
           {| position := 16; pageNumberLabel := "6" |};
           {| position := 17; pageNumberLabel := "7" |}]
  /\ ~ (forall bs,
          computeBreaks DegenerateSample.view DegenerateSample.state = Ok bs ->
          In 3 (map position bs) \/ In 4 (map position bs)).
Proof.
  split; [reflexivity|]. split; [reflexivity|]. split; [reflexivity|].
  intros H. specialize (H _ eq_refl). cbn in H.
  destruct H as [H|H];
    repeat (destruct H as [H|H]; [discriminate H|]); destruct H.
Qed.

(** ** Where a break is, again *)

(** The description of a push by [pushedBy] is exact: where it holds, a
    widget is pushed. *)
Lemma pushedBy_pushed view eph calls p :
  pushedBy view eph calls p ->
  In (createPageBreak p) (decorations_ (run view eph calls initLocals)).
Proof.
  intros (pre & w & post & h & -> & <- & Hm & Hkind).
  destruct Hkind as [[Hl Hover]|(Hl & Hclosed & rest & tail & total & -> & Hacc & Hover)].
  - rewrite run_app, run_cons.
    destruct (run_extends view eph post (step view eph (run view eph pre initLocals) w))
      as (extra & ->).
    apply in_or_app. left. unfold step. rewrite Hm, Hl. unfold blockBranch.
    destruct (Z.gtb_spec (currentPageHeight (run view eph pre initLocals) + h) eph);
      [|lia].
    cbn [decorations_]. apply in_or_app. right. now left.
  - change (w :: rest ++ tail) with ((w :: rest) ++ tail).
    rewrite run_app, run_app.
    destruct (run_extends view eph tail
                (run view eph (w :: rest) (run view eph pre initLocals)))
      as (extra & ->).
    apply in_or_app. left.
    rewrite (list_run_atomic view eph (w :: rest) (vpos w) total).
    + unfold closeList.
      destruct (Z.gtb_spec (currentPageHeight (run view eph pre initLocals) + total) eph);
        [|lia].
      cbn [decorations_]. apply in_or_app. right. now left.
    + exists w, rest, h. auto.
    + assumption.
Qed.

(** ** A list in a real document *)

(** C1 (the code misses it). List atomicity on a bullet list of two
    items that follows a paragraph: the list (position 3, size 12) does not
    fit after the paragraph (300 + 700 > 864), and three breaks are
    emitted, one at the start of the list and two inside it, before the
    paragraph of each item; the page height at the end is 300, the height
    of the last paragraph. *)
Theorem nested_list_is_split :
  effectivePageHeight (pluginState ListSample.state) = 864
  /\ map (fun v => (typeName (vnode v), vpos v, vpos v + nodeSize (vnode v)))
         (descendants (doc ListSample.state))
     = [("paragraph", 0, 3); ("text", 1, 2); ("bulletList", 3, 15);
        ("listItem", 4, 9); ("paragraph", 5, 8); ("text", 6, 7);
        ("listItem", 9, 14); ("paragraph", 10, 13); ("text", 11, 12)]
  /\ computeBreaks ListSample.view ListSample.state
     = Ok [{| position := 3; pageNumberLabel := "1" |};
           {| position := 5; pageNumberLabel := "2" |};
           {| position := 10; pageNumberLabel := "3" |}]
  /\ exists s, traverse ListSample.view ListSample.state = Ok s
               /\ currentPageHeight s = 300.
Proof.
  split; [reflexivity|]. split; [reflexivity|]. split; [reflexivity|].
  eexists. split; reflexivity.
Qed.

(** * Further properties of the extension *)

Import Measures.

(** ** The lookup of the next sibling *)

(** X1. The callback never throws during a traversal: at every call
    [descendants] makes, the position handed to [doc.nodeAt] is inside the
    document, so the traversal and [decorations] return.  Outside a
    traversal the same callback can throw. *)
Theorem traversal_never_throws view state :
  (forall v s, In v (descendants (doc state)) ->
     exists s',
       callback view (doc state) (effectivePageHeight (pluginState state))
                s (vnode v) (vpos v) = Ok s')
  /\ (exists ds, decorations view state = Ok ds)
  /\ callback (viewOf [(7, 10)]) (document [paragraph]) 864 initLocals
              (listItem []) 7 = RangeError.
Proof.
  split; [|split].
  - intros v s Hv. rewrite callback_step by assumption. eauto.
  - rewrite decorations_run. eauto.
  - reflexivity.
Qed.

(** ** Counting breaks *)

Lemma step_visited view eph s v h :
  measured view v = Some h ->
  step view eph s v = stepMeasured eph s (v, h).
Proof. intros Hm. unfold step, stepMeasured. now rewrite Hm. Qed.

Lemma stepMeasured_count eph s vh :
  (List.length (decorations_ (stepMeasured eph s vh))
   <= List.length (decorations_ s) + (if compares vh then 1 else 0))%nat.
Proof.
  unfold stepMeasured, compares, listBranch, blockBranch.
  destruct (listRelated (vnode (fst vh))); cbn [negb orb].
  - destruct (isLastListItem (vnext (fst vh))).
    + destruct (_ >? eph); cbn [decorations_]; rewrite ?length_app; cbn; lia.
    + cbn [decorations_]. lia.
  - destruct (_ >? eph); cbn [decorations_]; rewrite ?length_app; cbn; lia.
Qed.

Lemma fold_stepMeasured_count eph l s :
  (List.length (decorations_ (fold_left (stepMeasured eph) l s))
   <= List.length (decorations_ s) + List.length (filter compares l))%nat.
Proof.
  revert s. induction l as [|vh l IH]; intros s; cbn [fold_left filter]; [lia|].
  specialize (IH (stepMeasured eph s vh)).
  pose proof (stepMeasured_count eph s vh).
  destruct (compares vh); cbn [List.length]; lia.
Qed.

Lemma drawWidgets_length o ds s :
  List.length (drawWidgets o ds s) = List.length ds.
Proof.
  revert s. induction ds as [|d rest IH]; intros s; [reflexivity|].
  cbn [drawWidgets toDOM List.length]. now rewrite IH.
Qed.

(** X4. At most one break per comparison: the breaks of a computation are
    no more than the calls that count and are ordinary blocks or list
    nodes with no list node as next sibling.  A list node followed by a
    list sibling never adds a break of its own. *)
Theorem breaks_bounded_by_comparisons view state :
  exists bs,
    computeBreaks view state = Ok bs
    /\ (List.length bs
        <= List.length (filter compares (visited view (descendants (doc state)))))%nat.
Proof.
  rewrite computeBreaks_run. eexists. split; [reflexivity|].
  rewrite length_map, drawWidgets_length, run_visited.
  apply (fold_stepMeasured_count _ _ initLocals).
Qed.

(** ** Documents that fit on one page *)

Lemma totalHeight_cons view v rest :
  totalHeight view (v :: rest)
  = match measured view v with
    | Some h => h + totalHeight view rest
    | None => totalHeight view rest
    end.
Proof.
  unfold totalHeight. cbn [visited flat_map].
  destruct (measured view v); reflexivity.
Qed.

Lemma totalHeight_nonneg view calls :
  (forall v h, In v calls -> measured view v = Some h -> 0 < h) ->
  0 <= totalHeight view calls.
Proof.
  induction calls as [|v rest IH]; intros Hpos; [cbn; lia|].
  rewrite totalHeight_cons.
  assert (0 <= totalHeight view rest)
    by (apply IH; intros w h Hw; apply Hpos; now right).
  destruct (measured view v) as [h|] eqn:Hm; [|assumption].
  specialize (Hpos v h (or_introl eq_refl) Hm). lia.
Qed.

Lemma run_fits view eph calls :
  (forall v h, In v calls -> measured view v = Some h -> 0 < h) ->
  forall s,
    0 <= currentPageHeight s -> 0 <= pending s -> decorations_ s = [] ->
    currentPageHeight s + pending s + totalHeight view calls <= eph ->
    decorations_ (run view eph calls s) = [].
Proof.
  induction calls as [|v rest IH]; intros Hpos s Hc Hp Hd Hfit; [exact Hd|].
  rewrite run_cons. rewrite totalHeight_cons in Hfit.
  assert (Hrest : 0 <= totalHeight view rest)
    by (apply totalHeight_nonneg; intros w h Hw; apply Hpos; now right).
  assert (Hpos' : forall w h, In w rest -> measured view w = Some h -> 0 < h)
    by (intros w h Hw; apply Hpos; now right).
  unfold step. destruct (measured view v) as [h|] eqn:Hm.
  2:{ apply IH; assumption. }
  specialize (Hpos v h (or_introl eq_refl) Hm).
  unfold pending in Hp, Hfit.
  destruct (listRelated (vnode v)).
  - unfold listBranch. destruct (isLastListItem (vnext v)).
    + destruct (Z.gtb_spec
                  (currentPageHeight s
                   + ((if lastNodeWasList s then currentListHeight s else 0) + h))
                  eph); [lia|].
      apply IH; try assumption; unfold pending; cbn; lia.
    + apply IH; try assumption; unfold pending; cbn; lia.
  - unfold blockBranch.
    destruct (Z.gtb_spec (currentPageHeight s + h) eph); [lia|].
    apply IH; try assumption; unfold pending; cbn; lia.
Qed.

(** X2. A document that fits on one page gets no break: when the heights
    that count are positive and their sum is at most the effective page
    height, the computation returns no break at all. *)
Theorem one_page_document_no_break view state :
  (forall v h, In v (descendants (doc state)) -> measured view v = Some h -> 0 < h) ->
  totalHeight view (descendants (doc state))
    <= effectivePageHeight (pluginState state) ->
  computeBreaks view state = Ok [].
Proof.
  intros Hpos Hfit. rewrite computeBreaks_run.
  rewrite (run_fits view _ _ Hpos initLocals); try reflexivity; cbn; lia.
Qed.

Lemma one_page_document_no_break_witness :
  computeBreaks (viewOf [(0, 300); (3, 300); (6, 200)])
                (withDefaults (document [paragraph; paragraph; paragraph]))
  = Ok [].
Proof.
  apply (one_page_document_no_break
           (viewOf [(0, 300); (3, 300); (6, 200)])
           (withDefaults (document [paragraph; paragraph; paragraph]))).
  - intros v h Hv Hm. cbn in Hv.
    repeat (destruct Hv as [<-|Hv]; [vm_compute in Hm; try discriminate Hm;
                                     injection Hm as <-; reflexivity|]).
    destruct Hv.
  - vm_compute. discriminate.
Defined.

(** ** A taller page *)

Lemma step_dominated view eph1 eph2 s1 s2 v :
  eph1 <= eph2 ->
  (forall h, measured view v = Some h -> 0 < h) ->
  dominated s1 s2 ->
  dominated (step view eph1 s1 v) (step view eph2 s2 v).
Proof.
  intros Heph Hpos (Ho & Hl & Hc & Hlh & Hn & He). unfold step.
  destruct (measured view v) as [h|]; [|unfold dominated; auto 10].
  specialize (Hpos h eq_refl).
  destruct (listRelated (vnode v)).
  - unfold listBranch. rewrite <- Ho, <- Hl.
    set (u := (if lastNodeWasList s1 then currentListHeight s1 else 0) + h).
    assert (Hu : 0 < u).
    { unfold u. destruct (lastNodeWasList s1); [specialize (Hlh eq_refl)|]; lia. }
    destruct (isLastListItem (vnext v)).
    + destruct (Z.gtb_spec (currentPageHeight s1 + u) eph1),
               (Z.gtb_spec (currentPageHeight s2 + u) eph2);
        unfold dominated; cbn [decorations_ currentPageHeight lastNodeWasList
                                 currentListHeight];
        rewrite ?length_app; cbn [List.length];
        repeat split; try discriminate; try lia.
    + unfold dominated; cbn [decorations_ currentPageHeight lastNodeWasList
                               currentListHeight].
      repeat split; try assumption; try lia.
  - unfold blockBranch.
    destruct (Z.gtb_spec (currentPageHeight s1 + h) eph1),
             (Z.gtb_spec (currentPageHeight s2 + h) eph2);
      unfold dominated; cbn [decorations_ currentPageHeight lastNodeWasList
                               currentListHeight];
      rewrite ?length_app; cbn [List.length];
      repeat split; try discriminate; try assumption; try lia.
Qed.

Lemma run_dominated view eph1 eph2 calls :
  eph1 <= eph2 ->
  (forall v h, In v calls -> measured view v = Some h -> 0 < h) ->
  forall s1 s2, dominated s1 s2 ->
  dominated (run view eph1 calls s1) (run view eph2 calls s2).
Proof.
  intros Heph. induction calls as [|v rest IH]; intros Hpos s1 s2 H; [exact H|].
  rewrite !run_cons. apply IH.
  - intros w h Hw. apply Hpos. now right.
  - apply step_dominated; [assumption| |assumption].
    intros h. apply Hpos. now left.
Qed.

(** X3. A taller page never gives more breaks: for the same document and
    view, with positive heights, the computation with the larger effective
    page height returns no more breaks than the one with the smaller. *)
Theorem taller_page_no_more_breaks view d small large :
  effectivePageHeight small <= effectivePageHeight large ->
  (forall v h, In v (descendants d) -> measured view v = Some h -> 0 < h) ->
  exists bs1 bs2,
    computeBreaks view (mkState d small) = Ok bs1
    /\ computeBreaks view (mkState d large) = Ok bs2
    /\ (List.length bs2 <= List.length bs1)%nat.
Proof.
  intros Heph Hpos. rewrite !computeBreaks_run. do 2 eexists.
  split; [reflexivity|]. split; [reflexivity|].
  rewrite !length_map, !drawWidgets_length.
  cbn [doc pluginState].
  destruct (run_dominated view _ _ (descendants d) Heph Hpos
              initLocals initLocals) as (_ & _ & _ & _ & Hn & _).
  - unfold dominated. cbn. repeat split; try lia; discriminate.
  - exact Hn.
Qed.

Lemma taller_page_no_more_breaks_witness :
  exists bs1 bs2,
    computeBreaks (viewOf [(0, 500); (3, 500); (6, 100)])
                  (mkState (document [paragraph; paragraph; paragraph]) addOptions)
      = Ok bs1
    /\ computeBreaks (viewOf [(0, 500); (3, 500); (6, 100)])
                     (mkState (document [paragraph; paragraph; paragraph])
                              (mkOptions 2000 816 96 None None))
       = Ok bs2
    /\ (List.length bs2 <= List.length bs1)%nat.
Proof.
  apply (taller_page_no_more_breaks
           (viewOf [(0, 500); (3, 500); (6, 100)])
           (document [paragraph; paragraph; paragraph])
           addOptions (mkOptions 2000 816 96 None None)).
  - vm_compute. discriminate.
  - intros v h Hv Hm. cbn in Hv.
    repeat (destruct Hv as [<-|Hv]; [vm_compute in Hm; try discriminate Hm;
                                     injection Hm as <-; reflexivity|]).
    destruct Hv.
Defined.

(** ** A list carried to its end *)

(** X5. A list group that reaches its closing node is one block for the
    page: over the calls of the group, begun with no list open, the
    callback makes one comparison; when the group does not fit, one widget
    is pushed, at the start of the group, and the page height becomes the
    height of the group; when it fits, nothing is pushed and the height of
    the group is added.  Either way no list is open afterwards. *)
Theorem closed_list_group_is_atomic view state pre g post start total s :
  let eph := effectivePageHeight (pluginState state) in
  descendants (doc state) = pre ++ g ++ post ->
  forEach (callback view (doc state) eph) pre initLocals = Ok s ->
  lastNodeWasList s = false ->
  ListRun view g start total ->
  exists s',
    forEach (callback view (doc state) eph) (pre ++ g) initLocals = Ok s'
    /\ lastNodeWasList s' = false
    /\ decorations_ s' =
       (if currentPageHeight s + total >? eph
        then decorations_ s ++ [createPageBreak start]
        else decorations_ s)
    /\ currentPageHeight s' =
       (if currentPageHeight s + total >? eph
        then total
        else currentPageHeight s + total).
Proof.
  intros eph Hdoc Hs Hclosed Hrun.
  rewrite (forEach_run view (doc state) eph) in Hs.
  2:{ intros w Hw. rewrite Hdoc. apply in_or_app. now left. }
  injection Hs as <-.
  rewrite (forEach_run view (doc state) eph).
  2:{ intros w Hw. rewrite Hdoc, app_assoc. apply in_or_app. now left. }
  eexists. split; [reflexivity|].
  rewrite run_app, (list_run_atomic view eph g start total) by assumption.
  unfold closeList. destruct (_ >? eph); cbn; auto.
Qed.

Lemma closed_list_group_is_atomic_witness :
  exists s',
    forEach (callback TwoListsSample.view (doc TwoListsSample.state) 864)
            ([] ++ [mkVisit (bulletList [listItem [paragraph]]) 0
                            (Some (orderedList [listItem [paragraph]]));
                    mkVisit (listItem [paragraph]) 1 None])
            initLocals = Ok s'
    /\ lastNodeWasList s' = false
    /\ decorations_ s' = [createPageBreak 0]
    /\ currentPageHeight s' = 1000.
Proof.
  apply (closed_list_group_is_atomic
           TwoListsSample.view TwoListsSample.state []
           [mkVisit (bulletList [listItem [paragraph]]) 0
                    (Some (orderedList [listItem [paragraph]]));
            mkVisit (listItem [paragraph]) 1 None]
           (skipn 2 (descendants (doc TwoListsSample.state)))
           0 1000 initLocals).
  - reflexivity.
  - reflexivity.
  - reflexivity.
  - exists (mkVisit (bulletList [listItem [paragraph]]) 0
                    (Some (orderedList [listItem [paragraph]]))),
           [mkVisit (listItem [paragraph]) 1 None], 500.
    repeat split.
    apply (accum_item _ _ 500 _ 500); try reflexivity.
    apply accum_close; reflexivity.
Defined.

(** ** Documents without lists whose blocks fit *)

Lemma step_plain view eph s v (T : Z) :
  (forall h, measured view v = Some h ->
             listRelated (vnode v) = false /\ h <= eph) ->
  currentPageHeight s <= eph ->
  T <= Z.of_nat (List.length (decorations_ s)) * eph + currentPageHeight s ->
  currentPageHeight (step view eph s v) <= eph
  /\ T + match measured view v with Some h => h | None => 0 end
     <= Z.of_nat (List.length (decorations_ (step view eph s v))) * eph
        + currentPageHeight (step view eph s v).
Proof.
  intros Hplain Hc HT. unfold step.
  destruct (measured view v) as [h|]; [|split; lia].
  destruct (Hplain h eq_refl) as [-> Hh]. unfold blockBranch.
  destruct (Z.gtb_spec (currentPageHeight s + h) eph);
    cbn [decorations_ currentPageHeight]; rewrite ?length_app;
    cbn [List.length]; split; nia.
Qed.

Lemma run_plain view eph calls :
  (forall v h, In v calls -> measured view v = Some h ->
               listRelated (vnode v) = false /\ h <= eph) ->
  forall s T,
    currentPageHeight s <= eph ->
    T <= Z.of_nat (List.length (decorations_ s)) * eph + currentPageHeight s ->
    currentPageHeight (run view eph calls s) <= eph
    /\ T + totalHeight view calls
       <= Z.of_nat (List.length (decorations_ (run view eph calls s))) * eph
          + currentPageHeight (run view eph calls s).
Proof.
  induction calls as [|v rest IH]; intros Hplain s T Hc HT.
  - cbn. split; lia.
  - rewrite run_cons, totalHeight_cons.
    destruct (step_plain view eph s v T) as [Hc1 HT1]; try assumption.
    { intros h. apply Hplain. now left. }
    destruct (IH (fun w h Hw => Hplain w h (or_intror Hw)) _ _ Hc1 HT1) as [Hc2 HT2].
    split; [assumption|]. destruct (measured view v); lia.
Qed.

(** X6. No page is over-full when every block fits: in a document where
    no list node counts and every height that counts is at most the
    effective page height (itself not negative), the page height is at
    most the effective page height after every call of the traversal. *)
Theorem plain_document_pages_not_overfull view state pre post :
  let eph := effectivePageHeight (pluginState state) in
  0 <= eph ->
  (forall v h, In v (descendants (doc state)) -> measured view v = Some h ->
               listRelated (vnode v) = false /\ h <= eph) ->
  descendants (doc state) = pre ++ post ->
  exists s,
    forEach (callback view (doc state) eph) pre initLocals = Ok s
    /\ currentPageHeight s <= eph.
Proof.
  intros eph Heph Hplain Hdoc.
  rewrite (forEach_run view (doc state) eph).
  2:{ intros w Hw. rewrite Hdoc. apply in_or_app. now left. }
  eexists. split; [reflexivity|].
  apply (run_plain view eph pre) with (T := 0); cbn; try lia.
  intros v h Hv. apply Hplain. rewrite Hdoc. apply in_or_app. now left.
Qed.

(** X7. The breaks suffice: in such a document the heights that count
    add up to at most the effective page height times the number of pages
    (the breaks plus one). *)
Theorem plain_document_breaks_suffice view state :
  let eph := effectivePageHeight (pluginState state) in
  0 <= eph ->
  (forall v h, In v (descendants (doc state)) -> measured view v = Some h ->
               listRelated (vnode v) = false /\ h <= eph) ->
  exists bs,
    computeBreaks view state = Ok bs
    /\ totalHeight view (descendants (doc state))
       <= (Z.of_nat (List.length bs) + 1) * eph.
Proof.
  intros eph Heph Hplain. rewrite computeBreaks_run. eexists.
  split; [reflexivity|]. fold eph.
  rewrite length_map, drawWidgets_length.
  destruct (run_plain view eph (descendants (doc state)) Hplain initLocals 0)
    as [Hc HT]; cbn; try lia.
Qed.

Lemma plain_document_pages_not_overfull_witness :
  exists s,
    forEach (callback (viewOf [(0, 500); (3, 500); (6, 100)])
                      (document [paragraph; paragraph; paragraph]) 864)
            (firstn 3 (descendants (document [paragraph; paragraph; paragraph])))
            initLocals = Ok s
    /\ currentPageHeight s <= 864.
Proof.
  apply (plain_document_pages_not_overfull
           (viewOf [(0, 500); (3, 500); (6, 100)])
           (withDefaults (document [paragraph; paragraph; paragraph]))
           (firstn 3 (descendants (document [paragraph; paragraph; paragraph])))
           (skipn 3 (descendants (document [paragraph; paragraph; paragraph])))).
  - vm_compute. discriminate.
  - intros v h Hv Hm. cbn in Hv.
    repeat (destruct Hv as [<-|Hv];
            [vm_compute in Hm;
             first [discriminate Hm
                   |injection Hm as <-;
                    split; [reflexivity|vm_compute; discriminate]]|]).
    destruct Hv.
  - reflexivity.
Defined.

Lemma plain_document_breaks_suffice_witness :
  exists bs,
    computeBreaks (viewOf [(0, 500); (3, 500); (6, 100)])
                  (withDefaults (document [paragraph; paragraph; paragraph])) = Ok bs
    /\ totalHeight (viewOf [(0, 500); (3, 500); (6, 100)])
                   (descendants (document [paragraph; paragraph; paragraph]))
       <= (Z.of_nat (List.length bs) + 1) * 864.
Proof.
  apply (plain_document_breaks_suffice
           (viewOf [(0, 500); (3, 500); (6, 100)])
           (withDefaults (document [paragraph; paragraph; paragraph]))).
  - vm_compute. discriminate.
  - intros v h Hv Hm. cbn in Hv.
    repeat (destruct Hv as [<-|Hv];
            [vm_compute in Hm;
             first [discriminate Hm
                   |injection Hm as <-;
                    split; [reflexivity|vm_compute; discriminate]]|]).
    destruct Hv.
Defined.

(** ** The simple copy *)

Lemma simple_decorations_run view state :
  PaginationSimple.decorations view state
  = PaginationSimple.decorations_
      (simpleRun view (PaginationSimple.pluginState state)
                 (descendants (PaginationSimple.doc state))
                 PaginationSimple.initLocals).
Proof. reflexivity. Qed.

Lemma simple_callback_eq view o s v :
  PaginationSimple.callback view o s (vnode v) (vpos v)
  = if PaginationSimple.currentPageHeight s + simpleHeight view v
       >? PaginationSimple.pageHeight o - 2 * PaginationSimple.pageMargin o
    then {| PaginationSimple.decorations_ :=
              PaginationSimple.decorations_ s ++ [PaginationSimple.widget (vpos v)];
            PaginationSimple.currentPageHeight := simpleHeight view v |}
    else {| PaginationSimple.decorations_ := PaginationSimple.decorations_ s;
            PaginationSimple.currentPageHeight :=
              PaginationSimple.currentPageHeight s + simpleHeight view v |}.
Proof.
  unfold PaginationSimple.callback. fold (simpleHeight view v).
  destruct (_ >? _); reflexivity.
Qed.

Lemma simpleRun_cons view o v rest s :
  simpleRun view o (v :: rest) s
  = simpleRun view o rest (PaginationSimple.callback view o s (vnode v) (vpos v)).
Proof. reflexivity. Qed.

Lemma sorted_snoc_Z l x :
  StronglySorted Z.lt l -> Forall (fun y => y < x) l ->
  StronglySorted Z.lt (l ++ [x]).
Proof.
  intros Hs Hf. apply StronglySorted_app; [assumption|repeat constructor|].
  intros a b Ha [<-|[]]. rewrite Forall_forall in Hf. now apply Hf.
Qed.

Lemma simpleRun_sorted view o calls :
  StronglySorted before calls ->
  forall lo s,
    (forall v, In v calls -> lo <= vpos v) ->
    StronglySorted Z.lt (map PaginationSimple.dpos (PaginationSimple.decorations_ s)) ->
    Forall (fun y => y < lo) (map PaginationSimple.dpos (PaginationSimple.decorations_ s)) ->
    StronglySorted Z.lt
      (map PaginationSimple.dpos (PaginationSimple.decorations_ (simpleRun view o calls s))).
Proof.
  induction 1 as [|v rest Hsort IH Hv]; intros lo s Hlo Hs Hf; [exact Hs|].
  rewrite simpleRun_cons. apply (IH (vpos v + 1)).
  - intros w Hw. rewrite Forall_forall in Hv. specialize (Hv w Hw).
    unfold before in Hv. lia.
  - rewrite simple_callback_eq. destruct (_ >? _); cbn [PaginationSimple.decorations_];
      [|assumption].
    rewrite map_app. apply sorted_snoc_Z; [assumption|].
    eapply Forall_impl; [|exact Hf]. intros y Hy. cbn beta in Hy.
    specialize (Hlo v (or_introl eq_refl)). cbn [PaginationSimple.dpos]. lia.
  - specialize (Hlo v (or_introl eq_refl)).
    rewrite simple_callback_eq. destruct (_ >? _); cbn [PaginationSimple.decorations_].
    + rewrite map_app. apply Forall_app. split.
      * eapply Forall_impl; [|exact Hf]. intros y Hy. cbn beta in Hy. lia.
      * repeat constructor. cbn [PaginationSimple.dpos]. lia.
    + eapply Forall_impl; [|exact Hf]. intros y Hy. cbn beta in Hy. lia.
Qed.

(** X8. The simple copy returns its widgets at strictly increasing
    positions. *)
Theorem simple_positions_strictly_increasing view state :
  StronglySorted Z.lt
    (map PaginationSimple.dpos (PaginationSimple.decorations view state)).
Proof.
  rewrite simple_decorations_run.
  apply (simpleRun_sorted view _ _ (descendants_sorted _) 0).
  - intros v Hv. apply walkList_bounds in Hv. lia.
  - constructor.
  - constructor.
Qed.

Lemma simpleRun_fitting view o calls :
  let eph := PaginationSimple.pageHeight o - 2 * PaginationSimple.pageMargin o in
  (forall v, In v calls -> simpleHeight view v <= eph) ->
  forall s,
    PaginationSimple.currentPageHeight s <= eph ->
    PaginationSimple.currentPageHeight (simpleRun view o calls s) <= eph
    /\ forall d, In d (PaginationSimple.decorations_ (simpleRun view o calls s)) ->
                 In d (PaginationSimple.decorations_ s)
                 \/ exists v, In v calls /\ vpos v = PaginationSimple.dpos d
                              /\ 0 < simpleHeight view v.
Proof.
  intros eph. induction calls as [|v rest IH]; intros Hfit s Hc.
  - split; [assumption|]. intros d Hd. now left.
  - rewrite simpleRun_cons.
    assert (Hv := Hfit v (or_introl eq_refl)).
    destruct (IH (fun w Hw => Hfit w (or_intror Hw))
                 (PaginationSimple.callback view o s (vnode v) (vpos v)))
      as [Hc' Hd'].
    { rewrite simple_callback_eq. fold eph.
      destruct (Z.gtb_spec (PaginationSimple.currentPageHeight s + simpleHeight view v) eph);
        cbn; lia. }
    split; [assumption|]. intros d Hd. destruct (Hd' d Hd) as [Hin|(w & Hw & Hp & Hh)].
    + rewrite simple_callback_eq in Hin. fold eph in Hin.
      destruct (Z.gtb_spec (PaginationSimple.currentPageHeight s + simpleHeight view v) eph);
        cbn [PaginationSimple.decorations_] in Hin; [|now left].
      apply in_app_or in Hin. destruct Hin as [Hin|[<-|[]]]; [now left|].
      right. exists v. split; [now left|]. split; [reflexivity|lia].
    + right. exists w. split; [now right|]. auto.
Qed.

Lemma simpleHeight_positive view v :
  0 < simpleHeight view v ->
  isBlock (vnode v) = true
  /\ exists el, nodeDOM view (vpos v) = Some (IsHTMLElement el)
                /\ 0 < offsetHeight el.
Proof.
  unfold simpleHeight. destruct (isBlock (vnode v)); [|lia].
  destruct (nodeDOM view (vpos v)) as [[el|]|]; try lia.
  intros H. split; [reflexivity|]. eauto.
Qed.

(** X9. When every block fits, the simple copy breaks only at drawn
    blocks: if the effective page height is not negative and no block
    drawn as an element is taller than it, every widget is at the
    position of a block node drawn as an element of positive height; no
    widget is at a text node or at a node of height 0. *)
Theorem simple_breaks_at_drawn_blocks view state :
  let eph := PaginationSimple.pageHeight (PaginationSimple.pluginState state)
             - 2 * PaginationSimple.pageMargin (PaginationSimple.pluginState state) in
  0 <= eph ->
  (forall v el, In v (descendants (PaginationSimple.doc state)) ->
                isBlock (vnode v) = true ->
                nodeDOM view (vpos v) = Some (IsHTMLElement el) ->
                offsetHeight el <= eph) ->
  forall d, In d (PaginationSimple.decorations view state) ->
  exists v el,
    In v (descendants (PaginationSimple.doc state))
    /\ vpos v = PaginationSimple.dpos d
    /\ isBlock (vnode v) = true
    /\ nodeDOM view (vpos v) = Some (IsHTMLElement el)
    /\ 0 < offsetHeight el.
Proof.
  intros eph Heph Hfit d Hd. rewrite simple_decorations_run in Hd.
  destruct (simpleRun_fitting view (PaginationSimple.pluginState state)
              (descendants (PaginationSimple.doc state))) with
    (s := PaginationSimple.initLocals) as [_ H].
  - intros v Hv. unfold simpleHeight.
    destruct (isBlock (vnode v)) eqn:Hb; [|exact Heph].
    destruct (nodeDOM view (vpos v)) as [[el|]|] eqn:Hdom; try exact Heph.
    exact (Hfit v el Hv Hb Hdom).
  - exact Heph.
  - destruct (H d Hd) as [[]|(v & Hv & Hp & Hh)].
    apply simpleHeight_positive in Hh. destruct Hh as (Hb & el & Hdom & Hpos).
    exists v, el. auto.
Qed.

Lemma simple_breaks_at_drawn_blocks_witness :
  In (PaginationSimple.widget 3)
     (PaginationSimple.decorations
        (viewOf [(0, 500); (3, 500); (6, 100)])
        (simpleState (withDefaults (document [paragraph; paragraph; paragraph]))))
  /\ exists v el,
       In v (descendants (document [paragraph; paragraph; paragraph]))
       /\ vpos v = 3
       /\ isBlock (vnode v) = true
       /\ nodeDOM (viewOf [(0, 500); (3, 500); (6, 100)]) (vpos v)
          = Some (IsHTMLElement el)
       /\ 0 < offsetHeight el.
Proof.
  assert (Hin : In (PaginationSimple.widget 3)
                   (PaginationSimple.decorations
                      (viewOf [(0, 500); (3, 500); (6, 100)])
                      (simpleState
                         (withDefaults (document [paragraph; paragraph; paragraph])))))
    by (now left).
  split; [exact Hin|].
  apply (simple_breaks_at_drawn_blocks
           (viewOf [(0, 500); (3, 500); (6, 100)])
           (simpleState (withDefaults (document [paragraph; paragraph; paragraph])))
           ltac:(vm_compute; discriminate)
           ltac:(intros v el Hv Hb Hel; cbn in Hv;
                 repeat (destruct Hv as [<-|Hv];
                         [first [discriminate Hb
                                |cbn in Hel; injection Hel as <-;
                                 vm_compute; discriminate]|]);
                 destruct Hv)
           (PaginationSimple.widget 3) Hin).
Defined.

(** ** The configuration reducer, again *)

(** X10. Applying a transaction twice is applying it once: merging the
    same patch again changes nothing. *)
Theorem apply_idempotent tr value :
  apply tr (apply tr value) = apply tr value.
Proof.
  unfold apply. destruct (getMeta tr "paginationOptions") as [p|]; [|reflexivity].
  destruct p as [ph pw pm l sp]. unfold spread. cbn.
  destruct ph, pw, pm, l, sp; reflexivity.
Qed.

(** X11. Patches compose, the later one winning: after two dispatched
    patches a key holds the value of the second patch if the second has
    the key, else that of the first if the first has it, else the value it
    had before. *)
Theorem patches_compose_last_wins value p1 p2 tr1 tr2 k :
  get (apply (fst (setPaginationOptions p2 tr2 true))
             (apply (fst (setPaginationOptions p1 tr1 true)) value)) k
  = match getPartial p2 k with
    | Some v => v
    | None =>
        match getPartial p1 k with
        | Some v => v
        | None => get value k
        end
    end.
Proof.
  cbn. destruct p1 as [ph1 pw1 pm1 l1 sp1], p2 as [ph2 pw2 pm2 l2 sp2].
  destruct k; cbn.
  - destruct ph2, ph1; reflexivity.
  - destruct pw2, pw1; reflexivity.
  - destruct pm2, pm1; reflexivity.
  - destruct l2, l1; reflexivity.
  - destruct sp2, sp1; reflexivity.
Qed.

(** ** The drawn markers *)

(** X12. What a drawn marker shows: the marker drawn after [k] others
    is the [div] of the widget at that place in the set; its class is
    [page-break] and its [data-page-number] the counter plus [k]; it has a
    page indicator exactly when [showPageNumber] is true, reading the
    label ("Page" when the label is absent or empty), a space and the same
    number. *)
Theorem page_indicator_text o ds s k d el :
  nth_error (drawWidgets o ds s) k = Some (d, el) ->
  nth_error ds k = Some d
  /\ className el = "page-break"
  /\ dataPageNumber el = String_ (pageNumber s + Z.of_nat k)
  /\ pageIndicator el =
     match showPageNumber o with
     | Some true =>
         Some ((match label o with
                | Some "" | None => "Page"
                | Some l => l
                end) ++ " " ++ String_ (pageNumber s + Z.of_nat k))%string
     | _ => None
     end.
Proof.
  revert s k. induction ds as [|d0 rest IH]; intros s k Hk.
  - destruct k; discriminate.
  - cbn [drawWidgets toDOM] in Hk. destruct k as [|k].
    + cbn in Hk. injection Hk as <- <-. rewrite Z.add_0_r.
      cbn [nth_error className dataPageNumber pageIndicator].
      repeat split. unfold truthy, labelOrPage.
      destruct (showPageNumber o) as [[|]|]; try reflexivity.
      destruct (label o) as [[|c l]|]; reflexivity.
    + cbn [nth_error] in Hk |- *. apply IH in Hk. cbn [pageNumber] in Hk.
      replace (pageNumber s + Z.of_nat (S k)) with (pageNumber s + 1 + Z.of_nat k)
        by lia.
      exact Hk.
Qed.

Lemma page_indicator_text_witness :
  nth_error [createPageBreak 7; createPageBreak 9] 1 = Some (createPageBreak 9)
  /\ className (mkDiv "page-break" "2" (Some "Page 2")) = "page-break"
  /\ dataPageNumber (mkDiv "page-break" "2" (Some "Page 2")) = String_ (1 + Z.of_nat 1)
  /\ pageIndicator (mkDiv "page-break" "2" (Some "Page 2")) =
     Some ("Page" ++ " " ++ String_ (1 + Z.of_nat 1))%string.
Proof.
  apply (page_indicator_text
           (mkOptions 1056 816 96 (Some "") (Some true))
           [createPageBreak 7; createPageBreak 9] initLocals 1
           (createPageBreak 9) (mkDiv "page-break" "2" (Some "Page 2"))).
  reflexivity.
Defined.

(** ** The class of a text style *)

(** X13. The class attribute round trip: rendering the attribute and
    parsing the result gives the class back, except that an empty class
    comes back as [null]; rendering what was parsed from the rendered
    element renders the same.  An element's own class survives parsing,
    rendering and parsing again unless it is empty. *)
Theorem class_attribute_round_trip a element :
  GlobalAttributes.parseHTML
    (GlobalAttributes.mkElement (GlobalAttributes.renderHTML a))
  = match GlobalAttributes.class_ a with
    | Some "" | None => None
    | Some c => Some c
    end
  /\ GlobalAttributes.renderHTML
       (GlobalAttributes.mkAttributes
          (GlobalAttributes.parseHTML
             (GlobalAttributes.mkElement (GlobalAttributes.renderHTML a))))
     = GlobalAttributes.renderHTML a
  /\ GlobalAttributes.parseHTML
       (GlobalAttributes.mkElement
          (GlobalAttributes.renderHTML
             (GlobalAttributes.mkAttributes (GlobalAttributes.parseHTML element))))
     = match GlobalAttributes.parseHTML element with
       | Some "" | None => None
       | Some c => Some c
       end.
Proof.
  assert (H : forall x,
             GlobalAttributes.parseHTML
               (GlobalAttributes.mkElement
                  (GlobalAttributes.renderHTML (GlobalAttributes.mkAttributes x)))
             = match x with Some "" | None => None | Some c => Some c end).
  { intros [[|c l]|]; reflexivity. }
  destruct a as [x]. split; [apply H|]. split; [|apply H].
  destruct x as [[|c l]|]; reflexivity.
Qed.

(** ** The height of a list item *)

(** X14. A drawn list item counts: for a [listItem] block of the
    document drawn as an element of positive [offsetHeight] whose margins
    and paddings are not negative (unparseable ones count as 0), the
    callback takes the list branch with the item's height, which is at
    least the [offsetHeight].  A negative margin can cancel the height:
    the item is then skipped like a node of height 0. *)
Theorem drawn_list_item_counts view d eph s v el :
  In v (descendants d) ->
  isBlock (vnode v) = true ->
  isListItem (vnode v) = true ->
  nodeDOM view (vpos v) = Some (IsHTMLElement el) ->
  0 < offsetHeight el ->
  0 <= orZero (marginTop (getComputedStyle el)) ->
  0 <= orZero (marginBottom (getComputedStyle el)) ->
  0 <= orZero (paddingTop (getComputedStyle el)) ->
  0 <= orZero (paddingBottom (getComputedStyle el)) ->
  callback view d eph s (vnode v) (vpos v)
    = Ok (listBranch eph s (vpos v) (calculateListItemHeight el) (vnext v))
  /\ offsetHeight el <= calculateListItemHeight el
  /\ callback (mkView (fun _ => Some (IsHTMLElement
                 (DOM.mkElement 10 (mkStyle (Some (-10)) None None None)))))
              (document [listItem []]) eph s (listItem []) 0
     = Ok s.
Proof.
  intros Hv Hb Hli Hdom Hh Hmt Hmb Hpt Hpb.
  assert (Hle : offsetHeight el <= calculateListItemHeight el)
    by (unfold calculateListItemHeight; lia).
  split; [|split; [exact Hle|reflexivity]].
  unfold callback. rewrite Hb, Hdom. cbn [negb].
  unfold nodeHeight. rewrite Hli.
  destruct (Z.eqb_spec (calculateListItemHeight el) 0) as [E|_]; [lia|].
  rewrite orb_true_r. rewrite (nodeAt_next d v Hv). reflexivity.
Qed.

Lemma drawn_list_item_counts_witness :
  callback (viewOf [(0, 40)]) (document [listItem []]) 864 initLocals
           (listItem []) 0
    = Ok (listBranch 864 initLocals 0 40 None)
  /\ 40 <= 40
  /\ callback (mkView (fun _ => Some (IsHTMLElement
                 (DOM.mkElement 10 (mkStyle (Some (-10)) None None None)))))
              (document [listItem []]) 864 initLocals (listItem []) 0
     = Ok initLocals.
Proof.
  apply (drawn_list_item_counts
           (viewOf [(0, 40)]) (document [listItem []]) 864 initLocals
           (mkVisit (listItem []) 0 None) (DOM.mkElement 40 noStyle));
    try reflexivity; try (now left); vm_compute; discriminate.
Defined.

(** ** Options that do not move breaks *)

Lemma drawWidgets_options o1 o2 ds s :
  map breakPoint (drawWidgets o1 ds s) = map breakPoint (drawWidgets o2 ds s).
Proof.
  revert s. induction ds as [|d rest IH]; intros s; [reflexivity|].
  cbn [drawWidgets toDOM map]. f_equal. apply IH.
Qed.

(** X15. The options reach the breaks through the effective page height
    only: two option objects with the same [pageHeight - 2 * pageMargin]
    give the same breaks, positions and page numbers, whatever their page
    width, label and page-number switch.  So a dispatched patch that has
    neither [pageHeight] nor [pageMargin] moves no break. *)
Theorem breaks_depend_on_effective_height_only view d o1 o2 patch tr :
  effectivePageHeight o1 = effectivePageHeight o2 ->
  pageHeight' patch = None ->
  pageMargin' patch = None ->
  computeBreaks view (mkState d o1) = computeBreaks view (mkState d o2)
  /\ computeBreaks view
       (mkState d (apply (fst (setPaginationOptions patch tr true)) o1))
     = computeBreaks view (mkState d o1).
Proof.
  intros Heph Hh Hm.
  assert (H : forall a b, effectivePageHeight a = effectivePageHeight b ->
                          computeBreaks view (mkState d a)
                          = computeBreaks view (mkState d b)).
  { intros a b E. rewrite !computeBreaks_run. cbn [doc pluginState].
    rewrite E. f_equal. apply drawWidgets_options. }
  split; [now apply H|]. apply H.
  cbn. unfold effectivePageHeight, spread. cbn. now rewrite Hh, Hm.
Qed.

Lemma breaks_depend_on_effective_height_only_witness :
  computeBreaks (viewOf [(0, 500); (3, 500)])
                (mkState (document [paragraph; paragraph]) addOptions)
  = computeBreaks (viewOf [(0, 500); (3, 500)])
                  (mkState (document [paragraph; paragraph])
                           (mkOptions 1064 400 100 None (Some false)))
  /\ computeBreaks (viewOf [(0, 500); (3, 500)])
       (mkState (document [paragraph; paragraph])
          (apply (fst (setPaginationOptions
                         (mkPartial None (Some 400) None (Some "Sheet") None)
                         (mkTr []) true))
                 addOptions))
     = computeBreaks (viewOf [(0, 500); (3, 500)])
                     (mkState (document [paragraph; paragraph]) addOptions).
Proof.
  apply (breaks_depend_on_effective_height_only
           (viewOf [(0, 500); (3, 500)]) (document [paragraph; paragraph])
           addOptions (mkOptions 1064 400 100 None (Some false))
           (mkPartial None (Some 400) None (Some "Sheet") None) (mkTr []));
    reflexivity.
Defined.
